(** * Subscription manager: a shallow embedding of [subscription.py]

    The Python module defines a mutable dataclass [Subscription] and a
    [SubscriptionManager] that keeps references to subscriptions in a
    dictionary keyed by name.  Python objects are references: the handle
    a caller keeps and the entry the manager stores are one object.  The
    embedding therefore has an object store ([heap]) from locations to
    [Subscription] records, and the manager's dictionary maps names to
    locations.  Dictionaries iterate in insertion order, so the dictionary
    is an association list with Python's update discipline.

    Costs are Python numbers.  Everything except the two aggregate queries
    is independent of the arithmetic, so the development is parametric in
    a number type with [0] and [+] ([PyNum]); it is instantiated with
    binary64 floats (the annotated type [float]) and with integers. *)

From Stdlib Require Import ZArith PrimFloat.
From stdpp Require Import base option list gmap strings.

(** ** Exceptions and results *)

Inductive exn : Set :=
  | ValueError      (* DuplicateNameError of the specification *)
  | KeyError        (* NotFoundError of the specification *)
  | OverflowError.  (* raised by date arithmetic that leaves the date range *)

Inductive result (A : Type) : Type :=
  | Ok (a : A)
  | Raise (e : exn).
Arguments Ok {A} a.
Arguments Raise {A} e.

(** ** [datetime.date]

    A date is identified with its proleptic Gregorian ordinal
    ([date.toordinal()]); [date.min] is ordinal 1 and [date.max]
    (9999-12-31) is ordinal 3652059. *)

Module PyDate.

Record date : Set := Date { toordinal : Z }.

Definition MINORDINAL : Z := 1.
Definition MAXORDINAL : Z := 3652059.

Definition valid (d : date) : Prop :=
  (MINORDINAL ≤ toordinal d ≤ MAXORDINAL)%Z.

(** [a <= b] on dates. *)
Definition le (a b : date) : bool := (toordinal a <=? toordinal b)%Z.

(** [d + datetime.timedelta(days=n)]: the ordinal is shifted and the
    result has to be a date again, otherwise [OverflowError]. *)
Definition add_days (d : date) (n : Z) : result date :=
  let o := (toordinal d + n)%Z in
  if (0 <? o)%Z && (o <=? MAXORDINAL)%Z then Ok (Date o)
  else Raise OverflowError.

(** Calendar dates, for writing examples as year-month-day. *)
Definition is_leap (y : Z) : bool :=
  ((y mod 4 =? 0) && (negb (y mod 100 =? 0) || (y mod 400 =? 0)))%Z.

Definition days_before_year (y : Z) : Z :=
  let p := (y - 1)%Z in (p * 365 + p / 4 - p / 100 + p / 400)%Z.

Definition days_before_month (y m : Z) : Z :=
  (nth (Z.to_nat m) [0; 0; 31; 59; 90; 120; 151; 181; 212; 243; 273; 304; 334] 0
   + (if (2 <? m) && is_leap y then 1 else 0))%Z.

Definition ymd (y m d : Z) : date :=
  Date (days_before_year y + days_before_month y m + d)%Z.

End PyDate.
Export PyDate(date, Date, toordinal).

(** ** Insertion-ordered dictionaries

    [dict] keeps its entries in insertion order; a key occurs at most
    once.  Assigning to an existing key keeps its position, assigning to
    a new key appends, deleting removes the entry. *)

Module PyDict.

Abbreviation t V := (list (string * V)).

Section dict.
Context {V : Type}.

Definition empty : t V := [].

Fixpoint get (k : string) (d : t V) : option V :=
  match d with
  | [] => None
  | (k', v) :: d' => if decide (k' = k) then Some v else get k d'
  end.

(** [k in d] *)
Definition contains (k : string) (d : t V) : bool :=
  match get k d with Some _ => true | None => false end.

(** [d[k] = v] *)
Fixpoint set (k : string) (v : V) (d : t V) : t V :=
  match d with
  | [] => [(k, v)]
  | (k', v') :: d' =>
      if decide (k' = k) then (k, v) :: d' else (k', v') :: set k v d'
  end.

(** [del d[k]] for a key that is present. *)
Definition del (k : string) (d : t V) : t V :=
  filter (λ kv, kv.1 ≠ k) d.

Definition keys (d : t V) : list string := d.*1.
Definition values (d : t V) : list V := d.*2.

(** The representation invariant of a dictionary. *)
Definition wf (d : t V) : Prop := NoDup (keys d).

End dict.
End PyDict.

(** ** Numbers *)

Class PyNum (num : Type) : Type := {
  num_zero : num;
  num_add : num → num → num
}.

(** [sum(xs)]: start from [0] and add the items from left to right. *)
Definition py_sum `{PyNum num} (xs : list num) : num :=
  foldl num_add num_zero xs.

#[export] Instance float_num : PyNum float :=
  {| num_zero := 0%float; num_add := PrimFloat.add |}.

#[export] Instance Z_num : PyNum Z :=
  {| num_zero := 0%Z; num_add := Z.add |}.

(** ** Objects and the program state *)

Definition loc : Set := positive.

Section Model.
Context {num : Type} `{!PyNum num}.

(** The dataclass [Subscription]. *)
Record Subscription : Type := mkSubscription {
  name : string;
  cost : num;
  renewal_date : date;
  active : bool
}.

Definition with_active (b : bool) (s : Subscription) : Subscription :=
  mkSubscription (name s) (cost s) (renewal_date s) b.

Definition with_renewal_date (d : date) (s : Subscription) : Subscription :=
  mkSubscription (name s) (cost s) d (active s).

(** The store of [Subscription] objects, and the manager's
    [_subscriptions] dictionary of references into it. *)
Record state : Type := State {
  heap : gmap loc Subscription;
  _subscriptions : PyDict.t loc
}.

(** [SubscriptionManager.__init__], with no object allocated yet. *)
Definition init : state := State ∅ PyDict.empty.

(** Computations: [None] is a read or write through a location that
    holds no object, which no Python program can perform; [Raise]
    carries the state at the point of the exception. *)
Definition Py (A : Type) : Type := state → option (result A * state).

Definition ret {A} (a : A) : Py A := λ σ, Some (Ok a, σ).

Definition raise {A} (e : exn) : Py A := λ σ, Some (Raise e, σ).

Definition bind {A B} (m : Py A) (k : A → Py B) : Py B := λ σ,
  match m σ with
  | Some (Ok a, σ') => k a σ'
  | Some (Raise e, σ') => Some (Raise e, σ')
  | None => None
  end.

Definition lift {A} (r : result A) : Py A := λ σ, Some (r, σ).

(** [obj.field] *)
Definition getattr {A} (field : Subscription → A) (obj : loc) : Py A := λ σ,
  match heap σ !! obj with
  | Some s => Some (Ok (field s), σ)
  | None => None
  end.

(** [obj.field = v], as the record update [upd] *)
Definition setattr (upd : Subscription → Subscription) (obj : loc) : Py unit := λ σ,
  match heap σ !! obj with
  | Some s => Some (Ok tt, State (<[obj := upd s]> (heap σ)) (_subscriptions σ))
  | None => None
  end.

Definition get_dict : Py (PyDict.t loc) := λ σ, Some (Ok (_subscriptions σ), σ).

Definition put_dict (d : PyDict.t loc) : Py unit := λ σ,
  Some (Ok tt, State (heap σ) d).

End Model.
Arguments Subscription num : clear implicits.
Arguments state num : clear implicits.
Arguments Py num A : clear implicits.

Declare Scope py_scope.
Delimit Scope py_scope with py.
Notation "x ← m ; k" := (bind m (λ x, k))
  (at level 20, m at level 100, k at level 200, only parsing) : py_scope.
Notation "m ;; k" := (bind m (λ _, k))
  (at level 100, k at level 200, right associativity) : py_scope.

(** ** The two classes *)

Section Operations.
Context {num : Type} `{!PyNum num}.
Local Open Scope py_scope.

(** [for x in xs: body(x)] *)
Fixpoint for_each {A} (body : A → Py num unit) (xs : list A) : Py num unit :=
  match xs with
  | [] => ret tt
  | x :: xs' => body x ;; for_each body xs'
  end.

(** [[item(x) for x in xs if cond(x)]] *)
Fixpoint comprehension {A B} (cond : A → Py num bool) (item : A → Py num B)
    (xs : list A) : Py num (list B) :=
  match xs with
  | [] => ret []
  | x :: xs' =>
      c ← cond x;
      if c : bool
      then (y ← item x; ys ← comprehension cond item xs'; ret (y :: ys))
      else comprehension cond item xs'
  end.

(** *** [Subscription] *)

(** The [__init__] generated by [@dataclass]: [active] is a parameter
    with default [True]; the new object gets a location not in use. *)
Definition Subscription_init (name : string) (cost : num)
    (renewal_date : date) (active : option bool) : Py num loc := λ σ,
  let self := fresh (dom (heap σ)) in
  Some (Ok self,
        State (<[self := mkSubscription name cost renewal_date (default true active)]> (heap σ))
              (_subscriptions σ)).

Definition Subscription_cancel (self : loc) : Py num unit :=
  setattr (with_active false) self.

(** [clock] is what [datetime.date.today()] returns at the call. *)
Definition Subscription_renew (clock : date) (self : loc) (today : option date)
    : Py num unit :=
  let today := default clock today in
  setattr (with_active true) self ;;
  d ← lift (PyDate.add_days today 30);
  setattr (with_renewal_date d) self.

(** *** [SubscriptionManager] *)

Definition add_subscription (subscription : loc) : Py num unit :=
  n ← getattr name subscription;
  d ← get_dict;
  if PyDict.contains n d then raise ValueError
  else put_dict (PyDict.set n subscription d).

Definition remove_subscription (name : string) : Py num unit :=
  d ← get_dict;
  if negb (PyDict.contains name d) then raise KeyError
  else put_dict (PyDict.del name d).

(** [self._subscriptions[name]] *)
Definition getitem (name : string) : Py num loc :=
  d ← get_dict;
  match PyDict.get name d with
  | Some sub => ret sub
  | None => raise KeyError
  end.

Definition auto_cancel_subscriptions (clock : date) (today : option date)
    : Py num unit :=
  let today := default clock today in
  d ← get_dict;
  for_each (λ sub,
      a ← getattr active sub;
      if a : bool then
        r ← getattr renewal_date sub;
        if PyDate.le r today then Subscription_cancel sub else ret tt
      else ret tt)
    (PyDict.values d).

Definition renew_subscription (clock : date) (name : string) (today : option date)
    : Py num unit :=
  d ← get_dict;
  if negb (PyDict.contains name d) then raise KeyError
  else (sub ← getitem name; Subscription_renew clock sub today).

Definition cancel_subscription (name : string) : Py num unit :=
  d ← get_dict;
  if negb (PyDict.contains name d) then raise KeyError
  else (sub ← getitem name; Subscription_cancel sub).

Definition get_subscription (name : string) : Py num loc :=
  d ← get_dict;
  if negb (PyDict.contains name d) then raise KeyError
  else getitem name.

(** [active_only] defaults to [False] here. *)
Definition list_subscriptions (active_only : bool) : Py num (list loc) :=
  d ← get_dict;
  if active_only
  then comprehension (getattr active) ret (PyDict.values d)
  else ret (PyDict.values d).

(** [active_only] defaults to [True] here. *)
Definition total_monthly_cost (active_only : bool) : Py num num :=
  subs ← list_subscriptions active_only;
  costs ← comprehension (λ _, ret true) (getattr cost) subs;
  ret (py_sum costs).

Definition total_savings : Py num num :=
  subs ← list_subscriptions false;
  costs ← comprehension (λ sub, a ← getattr active sub; ret (negb a))
                        (getattr cost) subs;
  ret (py_sum costs).

(** *** Calls from outside

    A client of the module constructs subscriptions, calls their two
    methods through the handles it holds, and calls the manager. *)

Inductive value : Type :=
  | VNone
  | VRef (obj : loc)
  | VList (objs : list loc)
  | VNum (x : num).

Inductive call : Type :=
  | CSubscription (name : string) (cost : num) (renewal_date : date)
                  (active : option bool)
  | CSubCancel (self : loc)
  | CSubRenew (self : loc) (today : option date)
  | CAdd (subscription : loc)
  | CRemove (name : string)
  | CAutoCancel (today : option date)
  | CRenew (name : string) (today : option date)
  | CCancel (name : string)
  | CGet (name : string)
  | CList (active_only : bool)
  | CTotalMonthlyCost (active_only : bool)
  | CTotalSavings.

Definition exec (clock : date) (c : call) : Py num value :=
  match c with
  | CSubscription n c r a => l ← Subscription_init n c r a; ret (VRef l)
  | CSubCancel l => Subscription_cancel l ;; ret VNone
  | CSubRenew l t => Subscription_renew clock l t ;; ret VNone
  | CAdd l => add_subscription l ;; ret VNone
  | CRemove n => remove_subscription n ;; ret VNone
  | CAutoCancel t => auto_cancel_subscriptions clock t ;; ret VNone
  | CRenew n t => renew_subscription clock n t ;; ret VNone
  | CCancel n => cancel_subscription n ;; ret VNone
  | CGet n => l ← get_subscription n; ret (VRef l)
  | CList b => ls ← list_subscriptions b; ret (VList ls)
  | CTotalMonthlyCost b => x ← total_monthly_cost b; ret (VNum x)
  | CTotalSavings => x ← total_savings; ret (VNum x)
  end.

(** One entry of a session log: the call and how it ended. *)
Definition event : Type := call * result value.

(** A session: timestamped calls run in sequence; an exception ends
    the call, not the session. *)
Fixpoint run (calls : list (date * call)) (σ : state num)
    : option (list event * state num) :=
  match calls with
  | [] => Some ([], σ)
  | (clock, c) :: rest =>
      match exec clock c σ with
      | Some (r, σ') =>
          match run rest σ' with
          | Some (evs, σ'') => Some ((c, r) :: evs, σ'')
          | None => None
          end
      | None => None
      end
  end.

Inductive reachable : state num → Prop :=
  | reachable_init : reachable init
  | reachable_step σ clock c r σ' :
      reachable σ → exec clock c σ = Some (r, σ') → reachable σ'.

End Operations.

(** ** Vocabulary of the properties *)

Section Properties.
Context {num : Type} `{!PyNum num}.

(** Every reference the manager holds points to an object. *)
Definition heap_closed (σ : state num) : Prop :=
  Forall (λ l, is_Some (heap σ !! l)) (PyDict.values (_subscriptions σ)).

(** Every key is the [name] of the subscription stored under it. *)
Definition key_is_name (σ : state num) : Prop :=
  Forall (λ kv, name <$> heap σ !! kv.2 = Some kv.1) (_subscriptions σ).

Definition manager_inv (σ : state num) : Prop :=
  PyDict.wf (_subscriptions σ) ∧ key_is_name σ.

(** The manager's subscriptions, as records, in dictionary order. *)
Definition subscriptions_of (σ : state num) : list (Subscription num) :=
  omap (λ l, heap σ !! l) (PyDict.values (_subscriptions σ)).

Definition inactive (s : Subscription num) : bool := negb (active s).

(** The state in which the object at [l] is [s] and nothing else differs. *)
Definition store (σ : state num) (l : loc) (s : Subscription num) : state num :=
  State (<[l := s]> (heap σ)) (_subscriptions σ).

(** Active with [renewal_date <= today]. *)
Definition due (today : date) (s : Subscription num) : bool :=
  active s && PyDate.le (renewal_date s) today.

(** What [auto_cancel_subscriptions] does to one subscription. *)
Definition cancel_due (today : date) (s : Subscription num) : Subscription num :=
  if due today s then with_active false s else s.

(** Objects persist and keep their [name]. *)
Definition names_stable (σ σ' : state num) : Prop :=
  ∀ l s, heap σ !! l = Some s → ∃ s', heap σ' !! l = Some s' ∧ name s' = name s.

(** A computation that leaves the dictionary and the names alone,
    however it ends. *)
Definition quiet {A} (m : Py num A) : Prop :=
  ∀ σ r σ', m σ = Some (r, σ') →
    _subscriptions σ' = _subscriptions σ ∧ names_stable σ σ'.

Definition managed (σ : state num) (l : loc) : Prop :=
  l ∈ PyDict.values (_subscriptions σ).

Definition object_name (σ : state num) (l : loc) : option string :=
  name <$> heap σ !! l.

Definition is_active (σ : state num) (l : loc) : bool :=
  match heap σ !! l with Some s => active s | None => false end.

(** A later [remove_subscription(n)] in the log succeeded. *)
Definition removed_later (n : option string) (evs : list (@event num)) : bool :=
  existsb (λ e, match e with
                | (CRemove n', Ok _) => bool_decide (n = Some n')
                | _ => false
                end) evs.

(** The subscriptions passed to the successful [add_subscription] calls
    of a log, in call order, without those whose entry a later
    successful [remove_subscription] deleted; [nm] names an object. *)
Fixpoint surviving_adds (nm : loc → option string) (evs : list (@event num))
    : list loc :=
  match evs with
  | [] => []
  | (CAdd l, Ok _) :: rest =>
      if removed_later (nm l) rest then surviving_adds nm rest
      else l :: surviving_adds nm rest
  | _ :: rest => surviving_adds nm rest
  end.

(** How one call changes the dictionary: a successful
    [add_subscription] appends an entry under the object's name, a
    successful [remove_subscription] deletes one, nothing else touches it. *)
Definition dict_step (c : @call num) (r : result (@value num)) (σ σ' : state num)
    : Prop :=
  match c, r with
  | CAdd l, Ok _ =>
      ∃ s, heap σ !! l = Some s
           ∧ PyDict.get (name s) (_subscriptions σ) = None
           ∧ _subscriptions σ' = _subscriptions σ ++ [(name s, l)]
  | CRemove n, Ok _ => _subscriptions σ' = PyDict.del n (_subscriptions σ)
  | _, _ => _subscriptions σ' = _subscriptions σ
  end.

End Properties.

(** ** Concrete sessions *)

Set Warnings "-inexact-float".

Module Demo.
Import PyDate.
Local Open Scope py_scope.

Definition jan1 : date := ymd 2025 1 1.
Definition last_day : date := ymd 9999 12 31.

(** Three subscriptions with float costs; the last two cancelled. *)
Definition streaming : state float :=
  State {[ 1%positive := mkSubscription "Netflix" 4.99%float (ymd 2025 1 1) true;
           2%positive := mkSubscription "Hulu" 4.99%float (ymd 2024 12 31) false;
           3%positive := mkSubscription "Gym" 12%float (ymd 2024 12 31) false ]}
        [("Netflix", 1%positive); ("Hulu", 2%positive); ("Gym", 3%positive)].

(** The same ledger with integer costs (cents). *)
Definition streaming_cents : state Z :=
  State {[ 1%positive := mkSubscription "Netflix" 499%Z (ymd 2025 1 1) true;
           2%positive := mkSubscription "Hulu" 499%Z (ymd 2024 12 31) false;
           3%positive := mkSubscription "Gym" 1200%Z (ymd 2024 12 31) false ]}
        [("Netflix", 1%positive); ("Hulu", 2%positive); ("Gym", 3%positive)].

(** The same objects when only "Netflix" has been added. *)
Definition netflix_only : state float :=
  State (heap streaming) [("Netflix", 1%positive)].


(** Costs at the top of the float range: the largest finite float,
    active, and twice [2^969], cancelled. *)
Definition at_the_limit : state float :=
  State {[ 1%positive := mkSubscription "Netflix" 0x1.fffffffffffffp+1023%float
                           (ymd 2025 1 1) true;
           2%positive := mkSubscription "Hulu" 0x1p+969%float (ymd 2024 12 31) false;
           3%positive := mkSubscription "Gym" 0x1p+969%float (ymd 2024 12 31) false ]}
        [("Netflix", 1%positive); ("Hulu", 2%positive); ("Gym", 3%positive)].

Definition session : list (date * @call Z) :=
  [ (jan1, CSubscription "Netflix" 1500%Z jan1 None);
    (jan1, CSubscription "Hulu" 1200%Z jan1 None);
    (jan1, CAdd 1%positive);
    (jan1, CAdd 2%positive);
    (jan1, CAdd 1%positive);
    (jan1, CRemove "Netflix");
    (jan1, CAdd 1%positive);
    (jan1, CAutoCancel None) ].

(** Where the session ends and what it logs. *)
Definition outcome : option (list (@event Z) * state Z) := run session init.

Definition final : state Z :=
  match outcome with Some (_, σ) => σ | None => init end.

Definition log : list (@event Z) :=
  match outcome with Some (evs, _) => evs | None => [] end.

End Demo.

(** Neumaier's compensated summation, which CPython's [sum] applies to
    floats from version 3.12 on: the first item is added to the integer
    start value, the later ones with a running compensation. *)
Definition float_sum_compensated (xs : list float) : float :=
  match xs with
  | [] => 0%float
  | x0 :: xs' =>
      let '(total, c) :=
        foldl (λ '(f, c) x,
                 let t := (f + x)%float in
                 (t, if (abs x <=? abs f)%float
                     then (c + ((f - t) + x))%float
                     else (c + ((x - t) + f))%float))
              ((0 + x0)%float, 0%float) xs' in
      if negb (is_zero c) && is_finite c then (total + c)%float else total
  end.

(** ** Costs counted in units *)





Section Units.
Context {num : Type} `{!PyNum num}.

(** [amount] turns a count of units (cents, whole dollars) into a cost,
    and the cost type adds two such costs without rounding as long as
    the counts and their sum stay within [bound]. *)
Definition adds_exactly (amount : Z → num) (bound : Z) : Prop :=
  num_zero = amount 0%Z
  ∧ ∀ a b : Z,
      (Z.abs a ≤ bound)%Z → (Z.abs b ≤ bound)%Z → (Z.abs (a + b) ≤ bound)%Z →
      num_add (amount a) (amount b) = amount (a + b)%Z.


End Units.

(** ** Vocabulary of the further properties *)

Section CallVocabulary.
Context {num : Type} `{!PyNum num}.

(** The exceptions a call can end with. *)
Definition may_raise (c : @call num) (e : exn) : Prop :=
  match c with
  | CAdd _ => e = ValueError
  | CRemove _ | CGet _ | CCancel _ => e = KeyError
  | CRenew _ _ => e = KeyError ∨ e = OverflowError
  | CSubRenew _ _ => e = OverflowError
  | _ => False
  end.

(** The handles a call passes point to objects. *)
Definition live_call (σ : state num) (c : @call num) : Prop :=
  match c with
  | CSubCancel l | CSubRenew l _ | CAdd l => is_Some (heap σ !! l)
  | _ => True
  end.

(** Objects persist with their [name] and [cost]. *)
Definition identity_stable (σ σ' : state num) : Prop :=
  ∀ l s, heap σ !! l = Some s →
    ∃ s', heap σ' !! l = Some s' ∧ name s' = name s ∧ cost s' = cost s.

(** A computation whose start and end are related by [R], however it
    ends. *)
Definition keeps (R : state num → state num → Prop) {A} (m : Py num A) : Prop :=
  ∀ σ r σ', m σ = Some (r, σ') → R σ σ'.

End CallVocabulary.

(** ** The command-line front end ([cli.py])

    The prompt reads lines from standard input and writes to standard
    output.  What the Python library does to text is taken as given:
    [strip] is [str.strip], [to_float] is [float] and [strptime_ymd] is
    [datetime.strptime(_, "%Y-%m-%d").date()], both with [None] for
    [ValueError]; [format_2f] is formatting with [.2f] and [date_str]
    is [str] of a date.  The front end always passes [today], so
    [clock] is never read. *)

Module Cli.

Abbreviation manager_add_subscription := add_subscription.
Abbreviation manager_remove_subscription := remove_subscription.
Abbreviation manager_list_subscriptions := list_subscriptions.
Abbreviation manager_renew_subscription := renew_subscription.

(** What reaches standard output: the prompt of an [input], or a
    printed line. *)
Inductive out : Set :=
  | Prompt (text : string)
  | Line (text : string).

(** [input] at the end of the input raises [EOFError]; the other
    exceptions are those of the library. *)
Inductive cli_exn : Set :=
  | EOFError
  | Core (e : exn).

Inductive outcome (A : Type) : Type :=
  | Done (a : A)
  | Fail (e : cli_exn).
Arguments Done {A} a.
Arguments Fail {A} e.

#[export] Instance exn_eq_dec : EqDecision exn.
Proof. solve_decision. Defined.

Section cli.
Context {num : Type} `{!PyNum num}.

Record world : Type := World {
  stdin : list string;
  stdout : list out;
  manager : state num
}.

Definition IO (A : Type) : Type := world → option (outcome A * world).

Definition ret {A} (a : A) : IO A := λ w, Some (Done a, w).

Definition fail {A} (e : cli_exn) : IO A := λ w, Some (Fail e, w).

Definition bind {A B} (m : IO A) (k : A → IO B) : IO B := λ w,
  match m w with
  | Some (Done a, w') => k a w'
  | Some (Fail e, w') => Some (Fail e, w')
  | None => None
  end.

(** [print(text)] *)
Definition print (text : string) : IO unit := λ w,
  Some (Done tt, World (stdin w) (stdout w ++ [Line text]) (manager w)).

(** [input(prompt)]: the prompt is written, then a line is read. *)
Definition input (prompt : string) : IO string := λ w,
  let shown := stdout w ++ [Prompt prompt] in
  match stdin w with
  | [] => Some (Fail EOFError, World [] shown (manager w))
  | line :: rest => Some (Done line, World rest shown (manager w))
  end.

(** A call into the library. *)
Definition call {A} (m : Py num A) : IO A := λ w,
  match m (manager w) with
  | Some (Ok a, σ) => Some (Done a, World (stdin w) (stdout w) σ)
  | Some (Raise e, σ) => Some (Fail (Core e), World (stdin w) (stdout w) σ)
  | None => None
  end.

(** [try: body except e: handler] *)
Definition except {A} (e : exn) (body handler : IO A) : IO A := λ w,
  match body w with
  | Some (Fail (Core e'), w') =>
      if decide (e' = e) then handler w' else Some (Fail (Core e'), w')
  | other => other
  end.

End cli.
End Cli.

Declare Scope io_scope.
Delimit Scope io_scope with io.
Notation "x ← m ; k" := (Cli.bind m (λ x, k))
  (at level 20, m at level 100, k at level 200, only parsing) : io_scope.
Notation "m ;; k" := (Cli.bind m (λ _, k))
  (at level 100, k at level 200, right associativity) : io_scope.

Module CliHandlers.
Import Cli.
Section handlers.
Context {num : Type} `{!PyNum num}.
Variable strip : string → string.
Variable to_float : string → option num.
Variable strptime_ymd : string → option date.
Variable format_2f : num → string.
Variable date_str : date → string.
Variable clock : date.
Local Open Scope io_scope.

(** [float(text)] *)
Definition float_of (text : string) : IO (num := num) num :=
  match to_float text with
  | Some x => ret x
  | None => fail (Core ValueError)
  end.

Definition parse_date (date_str : string) : IO (num := num) date :=
  match strptime_ymd date_str with
  | Some d => ret d
  | None => fail (Core ValueError)
  end.

(** [input(prompt).strip()] *)
Definition input_stripped (prompt : string) : IO (num := num) string :=
  line ← input prompt; ret (strip line).

Definition add_subscription : IO (num := num) unit :=
  name ← input_stripped "Enter subscription name: ";
  cost ← except ValueError
           (cost_str ← input_stripped "Enter monthly cost (e.g. 9.99): ";
            cost ← float_of cost_str;
            ret (Some cost))
           (print "Invalid cost. Please enter a numeric value.";; ret None);
  match cost with
  | None => ret tt
  | Some cost =>
      date_input ← input_stripped "Enter renewal date (YYYY‑MM‑DD): ";
      renewal_date ← except ValueError
                       (d ← parse_date date_input; ret (Some d))
                       (print "Invalid date format. Please use YYYY‑MM‑DD.";;
                        ret None);
      match renewal_date with
      | None => ret tt
      | Some renewal_date =>
          except ValueError
            (sub ← call (Subscription_init name cost renewal_date None);
             call (manager_add_subscription sub);;
             print ("Subscription '" +:+ name +:+ "' added successfully."))
            (print ("Subscription '" +:+ name +:+ "' already exists."))
      end
  end.

Definition remove_subscription : IO (num := num) unit :=
  name ← input_stripped "Enter subscription name to remove: ";
  except KeyError
    (call (manager_remove_subscription name);;
     print ("Subscription '" +:+ name +:+ "' removed."))
    (print ("Subscription '" +:+ name +:+ "' does not exist.")).

(** One line of the listing. *)
Definition describe (sub : loc) : IO (num := num) string :=
  a ← call (getattr active sub);
  let status := if a : bool then "active" else "cancelled" in
  n ← call (getattr name sub);
  c ← call (getattr cost sub);
  r ← call (getattr renewal_date sub);
  ret ("- " +:+ n +:+ ": $" +:+ format_2f c +:+ "/mo, renewal date " +:+ date_str r
       +:+ ", " +:+ status).

Fixpoint print_each (subs : list loc) : IO (num := num) unit :=
  match subs with
  | [] => ret tt
  | sub :: rest => (text ← describe sub; print text);; print_each rest
  end.

Definition list_subscriptions (active_only : bool) : IO (num := num) unit :=
  subs ← call (manager_list_subscriptions active_only);
  match subs with
  | [] => print "No subscriptions found."
  | _ => print_each subs
  end.

Definition auto_cancel : IO (num := num) unit :=
  date_input ← input_stripped "Enter today's date (YYYY‑MM‑DD): ";
  today ← except ValueError
            (d ← parse_date date_input; ret (Some d))
            (print "Invalid date format. Please use YYYY‑MM‑DD.";; ret None);
  match today with
  | None => ret tt
  | Some today =>
      call (auto_cancel_subscriptions clock (Some today));;
      print "Subscriptions due for renewal have been cancelled."
  end.

Definition renew_subscription : IO (num := num) unit :=
  name ← input_stripped "Enter subscription name to renew: ";
  date_input ← input_stripped "Enter today's date (YYYY‑MM‑DD): ";
  today ← except ValueError
            (d ← parse_date date_input; ret (Some d))
            (print "Invalid date format. Please use YYYY‑MM‑DD.";; ret None);
  match today with
  | None => ret tt
  | Some today =>
      except KeyError
        (call (manager_renew_subscription clock name (Some today));;
         sub ← call (get_subscription name);
         r ← call (getattr renewal_date sub);
         print ("Subscription '" +:+ name +:+ "' renewed. Next renewal date: "
                +:+ date_str r +:+ "."))
        (print ("Subscription '" +:+ name +:+ "' does not exist."))
  end.

Definition show_totals : IO (num := num) unit :=
  active_total ← call (total_monthly_cost true);
  savings ← call total_savings;
  print ("Total monthly cost of active subscriptions: $" +:+ format_2f active_total);;
  print ("Total monthly savings from cancelled subscriptions: $" +:+ format_2f savings).

(** The [actions] table: description and function of a choice. *)
Definition actions : list (string * (string * option (IO (num := num) unit))) :=
  [ ("1", ("Add subscription", Some add_subscription));
    ("2", ("Remove subscription", Some remove_subscription));
    ("3", ("List all subscriptions", Some (list_subscriptions false)));
    ("4", ("List only active subscriptions", Some (list_subscriptions true)));
    ("5", ("Auto cancel due subscriptions", Some auto_cancel));
    ("6", ("Renew a subscription", Some renew_subscription));
    ("7", ("Show totals", Some show_totals));
    ("8", ("Exit", None)) ].

Fixpoint print_menu (entries : list (string * (string * option (IO (num := num) unit))))
    : IO (num := num) unit :=
  match entries with
  | [] => ret tt
  | (key, (desc, _)) :: rest => print (key +:+ ". " +:+ desc);; print_menu rest
  end.

(** The [while True] loop of [main]; every round reads a line, so a
    number of rounds above the number of input lines is never used up.
    [None] when the rounds run out. *)
Fixpoint main_loop (rounds : nat) : IO (num := num) unit :=
  match rounds with
  | O => λ _, None
  | S rounds' =>
      print (String (Ascii.ascii_of_nat 10) "Subscription Manager CLI");;
      print_menu actions;;
      choice ← input_stripped "Choose an option: ";
      match PyDict.get choice actions with
      | None =>
          print "Invalid choice. Please select a valid option.";;
          main_loop rounds'
      | Some (description, func) =>
          if decide (choice = "8") then print "Goodbye!"
          else match func with
               | Some f => f;; main_loop rounds'
               | None => main_loop rounds'
               end
      end
  end.

(** [main] on the given input, with a new manager. *)
Definition main (rounds : nat) (lines : list string)
    : option (outcome unit * world (num := num)) :=
  main_loop rounds (World lines [] init).

End handlers.
End CliHandlers.

(** ** Vocabulary of the front end's properties *)

Module CliSpec.
Import Cli.
Section spec.
Context {num : Type} `{!PyNum num}.
Variable format_2f : num → string.
Variable date_str : date → string.

(** A computation of the front end that, on a manager satisfying its
    invariant, ends, keeps the invariant, only consumes input and only
    adds output, and lets no exception out but [EOFError], at the end of
    the input, and [OverflowError]. *)
Definition ends_well {A} (f : IO (num := num) A) : Prop :=
  ∀ w, manager_inv (manager w) →
    ∃ r w', f w = Some (r, w')
      ∧ manager_inv (manager w')
      ∧ stdin w' `suffix_of` stdin w
      ∧ stdout w `prefix_of` stdout w'
      ∧ match r with
        | Done _ => True
        | Fail EOFError => stdin w' = []
        | Fail (Core e) => e = OverflowError
        end.

(** The line [list_subscriptions] prints for a subscription. *)
Definition listing_line (s : Subscription num) : out :=
  Line ("- " +:+ name s +:+ ": $" +:+ format_2f (cost s) +:+ "/mo, renewal date "
        +:+ date_str (renewal_date s) +:+ ", "
        +:+ (if active s then "active" else "cancelled")).

(** The nine lines of the menu. *)
Definition menu : list out :=
  [ Line (String (Ascii.ascii_of_nat 10) "Subscription Manager CLI");
    Line "1. Add subscription";
    Line "2. Remove subscription";
    Line "3. List all subscriptions";
    Line "4. List only active subscriptions";
    Line "5. Auto cancel due subscriptions";
    Line "6. Renew a subscription";
    Line "7. Show totals";
    Line "8. Exit" ].

End spec.
End CliSpec.

(** A small instance of the text functions, for concrete sessions. *)
Module CliDemo.

Definition strip (s : string) : string := s.

Definition to_float (s : string) : option Z :=
  if decide (s = "15") then Some 1500%Z
  else if decide (s = "12") then Some 1200%Z
  else None.

Definition strptime_ymd (s : string) : option date :=
  if decide (s = "2025-01-01") then Some Demo.jan1
  else if decide (s = "9999-12-31") then Some Demo.last_day
  else None.

Definition format_2f (x : Z) : string :=
  if decide (x = 1500%Z) then "15.00"
  else if decide (x = 1200%Z) then "12.00"
  else if decide (x = 499%Z) then "4.99"
  else "0.00".

Definition date_str (d : date) : string :=
  if (toordinal d =? toordinal Demo.jan1)%Z then "2025-01-01" else "2025-01-31".

Definition main (rounds : nat) (lines : list string) :=
  CliHandlers.main strip to_float strptime_ymd format_2f date_str Demo.jan1
    rounds lines.

End CliDemo.

(** * Properties *)

(** ** Dictionaries *)

Module PyDictFacts.
Section facts.
Context {V : Type}.
Implicit Types (d : PyDict.t V) (k : string) (v : V).

Lemma get_None k d : PyDict.get k d = None ↔ k ∉ PyDict.keys d.
Proof.
  unfold PyDict.keys. induction d as [|[k' v'] d IH]; simpl.
  - split; [intros _; apply not_elem_of_nil | done].
  - rewrite not_elem_of_cons. destruct (decide (k' = k)) as [->|Hne].
    + split; [done | intros [? _]; done].
    + rewrite IH. split; [intros ?; split; [congruence | done] | intros [_ ?]; done].
Qed.

Lemma contains_true k d : PyDict.contains k d = true ↔ k ∈ PyDict.keys d.
Proof.
  unfold PyDict.contains. destruct (PyDict.get k d) eqn:E.
  - split; [intros _ | done].
    destruct (decide (k ∈ PyDict.keys d)) as [|Hn]; [done |].
    apply get_None in Hn. congruence.
  - apply get_None in E. split; [done | intros ?; contradiction].
Qed.

Lemma contains_false k d : PyDict.contains k d = false ↔ k ∉ PyDict.keys d.
Proof.
  rewrite <- contains_true. destruct (PyDict.contains k d); split; congruence.
Qed.

Lemma contains_false_get k d : PyDict.contains k d = false → PyDict.get k d = None.
Proof. unfold PyDict.contains. by destruct (PyDict.get k d). Qed.

Lemma get_Some_contains k d v : PyDict.get k d = Some v → PyDict.contains k d = true.
Proof. unfold PyDict.contains. by intros ->. Qed.

Lemma get_Some_elem k d v : PyDict.get k d = Some v → (k, v) ∈ d.
Proof.
  induction d as [|[k' v'] d IH]; simpl; [done |].
  destruct (decide (k' = k)) as [->|Hne].
  - intros [= ->]. apply list_elem_of_here.
  - intros ?. apply list_elem_of_further. auto.
Qed.

Lemma get_Some_value k d v : PyDict.get k d = Some v → v ∈ PyDict.values d.
Proof.
  intros Hg. apply get_Some_elem in Hg. unfold PyDict.values.
  apply list_elem_of_fmap. by exists (k, v).
Qed.

Lemma elem_get k d v : PyDict.wf d → (k, v) ∈ d → PyDict.get k d = Some v.
Proof.
  unfold PyDict.wf, PyDict.keys. induction d as [|[k' v'] d IH]; simpl.
  - intros _ Hin. by apply elem_of_nil in Hin.
  - rewrite NoDup_cons. intros [Hk Hnd] Hin.
    apply elem_of_cons in Hin as [[= -> ->]|Hin].
    + by rewrite decide_True.
    + destruct (decide (k' = k)) as [->|Hne]; [| by apply IH].
      exfalso. apply Hk. apply list_elem_of_fmap. by exists (k, v).
Qed.

(** Assigning to a key that is not there appends the entry. *)
Lemma set_fresh k v d : PyDict.get k d = None → PyDict.set k v d = d ++ [(k, v)].
Proof.
  induction d as [|[k' v'] d IH]; simpl; [done |].
  destruct (decide (k' = k)); [done |]. intros Hg. by rewrite IH.
Qed.

Lemma get_app_fresh k v d : PyDict.get k d = None → PyDict.get k (d ++ [(k, v)]) = Some v.
Proof.
  induction d as [|[k' v'] d IH]; simpl.
  - intros _. by rewrite decide_True.
  - destruct (decide (k' = k)); [done | auto].
Qed.

Lemma get_app_other k k' v d : k' ≠ k → PyDict.get k (d ++ [(k', v)]) = PyDict.get k d.
Proof.
  intros Hne. induction d as [|[k0 v0] d IH]; simpl.
  - by rewrite decide_False.
  - by destruct (decide (k0 = k)).
Qed.

Lemma keys_del k d : PyDict.keys (PyDict.del k d) = filter (λ k', k' ≠ k) (PyDict.keys d).
Proof.
  unfold PyDict.keys, PyDict.del. induction d as [|[k' v'] d IH]; [done |].
  rewrite fmap_cons, !filter_cons. simpl.
  destruct (decide (k' ≠ k)); [rewrite fmap_cons|]; by rewrite IH.
Qed.

Lemma contains_del k d : PyDict.contains k (PyDict.del k d) = false.
Proof.
  apply contains_false. rewrite keys_del. intros Hin.
  apply list_elem_of_filter in Hin as [Hne _]. done.
Qed.

Lemma wf_del k d : PyDict.wf d → PyDict.wf (PyDict.del k d).
Proof. unfold PyDict.wf. rewrite keys_del. apply NoDup_filter. Qed.

Lemma wf_app_fresh k v d :
  PyDict.wf d → PyDict.get k d = None → PyDict.wf (d ++ [(k, v)]).
Proof.
  unfold PyDict.wf. intros Hwf Hg. apply get_None in Hg. revert Hwf Hg.
  unfold PyDict.keys. rewrite fmap_app. simpl. intros Hwf Hg.
  apply NoDup_app. split; [done |]. split.
  - intros x Hx Hx'. apply list_elem_of_singleton in Hx'. by subst.
  - apply NoDup_singleton.
Qed.

End facts.
End PyDictFacts.

(** ** Single calls *)

Section Calls.
Context {num : Type} `{!PyNum num}.
Implicit Types (σ : state num) (l : loc) (s : Subscription num) (d clock : date)
  (today : option date).

Lemma state_eta σ : State (heap σ) (_subscriptions σ) = σ.
Proof. by destruct σ. Qed.

Lemma store_same σ l s : heap σ !! l = Some s → store σ l s = σ.
Proof.
  intros Hl. unfold store. rewrite insert_id by done. apply state_eta.
Qed.

Lemma store_store σ l s s' : store (store σ l s) l s' = store σ l s'.
Proof. unfold store. simpl. by rewrite insert_insert_eq. Qed.

Lemma getattr_live {A} (f : Subscription num → A) σ l s :
  heap σ !! l = Some s → getattr f l σ = Some (Ok (f s), σ).
Proof. intros Hl. unfold getattr. by rewrite Hl. Qed.

Lemma setattr_live upd σ l s :
  heap σ !! l = Some s → setattr upd l σ = Some (Ok tt, store σ l (upd s)).
Proof. intros Hl. unfold setattr. by rewrite Hl. Qed.

Lemma cancel_live σ l s :
  heap σ !! l = Some s →
  Subscription_cancel l σ = Some (Ok tt, store σ l (with_active false s)).
Proof. apply setattr_live. Qed.

Lemma add_days_in_range d n :
  (0 < toordinal d + n ≤ PyDate.MAXORDINAL)%Z →
  PyDate.add_days d n = Ok (Date (toordinal d + n)).
Proof.
  intros [Hlo Hhi]. unfold PyDate.add_days. simpl.
  apply Z.ltb_lt in Hlo. apply Z.leb_le in Hhi. by rewrite Hlo, Hhi.
Qed.

Lemma add_days_overflow d n :
  (PyDate.MAXORDINAL < toordinal d + n)%Z →
  PyDate.add_days d n = Raise OverflowError.
Proof.
  intros Hhi. unfold PyDate.add_days. simpl.
  apply Z.leb_gt in Hhi. rewrite Hhi. by rewrite andb_false_r.
Qed.

Lemma renew_live clock σ l s today d' :
  heap σ !! l = Some s →
  PyDate.add_days (default clock today) 30 = Ok d' →
  Subscription_renew clock l today σ
  = Some (Ok tt, store σ l (mkSubscription (name s) (cost s) d' true)).
Proof.
  intros Hl Hd. unfold Subscription_renew, bind, lift.
  rewrite (setattr_live _ _ _ _ Hl). rewrite Hd.
  erewrite setattr_live by (simpl; apply lookup_insert_eq).
  by rewrite store_store.
Qed.

(** Out of the date range the call raises after [active] was assigned. *)
Lemma renew_overflow clock σ l s today :
  heap σ !! l = Some s →
  PyDate.add_days (default clock today) 30 = Raise OverflowError →
  Subscription_renew clock l today σ
  = Some (Raise OverflowError, store σ l (with_active true s)).
Proof.
  intros Hl Hd. unfold Subscription_renew, bind, lift.
  rewrite (setattr_live _ _ _ _ Hl). by rewrite Hd.
Qed.

Lemma getitem_present σ n l :
  PyDict.get n (_subscriptions σ) = Some l → getitem n σ = Some (Ok l, σ).
Proof. intros Hg. unfold getitem, bind, get_dict, ret. by rewrite Hg. Qed.

Lemma add_duplicate σ l s :
  heap σ !! l = Some s →
  PyDict.contains (name s) (_subscriptions σ) = true →
  add_subscription l σ = Some (Raise ValueError, σ).
Proof.
  intros Hl Hc. unfold add_subscription, bind, get_dict.
  rewrite (getattr_live _ _ _ _ Hl). by rewrite Hc.
Qed.

Lemma add_fresh σ l s :
  heap σ !! l = Some s →
  PyDict.contains (name s) (_subscriptions σ) = false →
  add_subscription l σ
  = Some (Ok tt, State (heap σ) (_subscriptions σ ++ [(name s, l)])).
Proof.
  intros Hl Hc. unfold add_subscription, bind, get_dict.
  rewrite (getattr_live _ _ _ _ Hl). rewrite Hc. unfold put_dict.
  by rewrite PyDictFacts.set_fresh by by apply PyDictFacts.contains_false_get.
Qed.

Lemma remove_absent σ n :
  PyDict.contains n (_subscriptions σ) = false →
  remove_subscription n σ = Some (Raise KeyError, σ).
Proof. intros Hc. unfold remove_subscription, bind, get_dict. by rewrite Hc. Qed.

Lemma remove_present σ n :
  PyDict.contains n (_subscriptions σ) = true →
  remove_subscription n σ
  = Some (Ok tt, State (heap σ) (PyDict.del n (_subscriptions σ))).
Proof. intros Hc. unfold remove_subscription, bind, get_dict. by rewrite Hc. Qed.

Lemma renew_subscription_present clock σ n l today :
  PyDict.get n (_subscriptions σ) = Some l →
  renew_subscription clock n today σ = Subscription_renew clock l today σ.
Proof.
  intros Hg. unfold renew_subscription, bind, get_dict at 1.
  rewrite (PyDictFacts.get_Some_contains _ _ _ Hg). simpl.
  by rewrite (getitem_present _ _ _ Hg).
Qed.

Lemma cancel_subscription_present σ n l :
  PyDict.get n (_subscriptions σ) = Some l →
  cancel_subscription n σ = Subscription_cancel l σ.
Proof.
  intros Hg. unfold cancel_subscription, bind, get_dict at 1.
  rewrite (PyDictFacts.get_Some_contains _ _ _ Hg). simpl.
  by rewrite (getitem_present _ _ _ Hg).
Qed.

End Calls.

(** ** Loops and comprehensions *)

Section Loops.
Context {num : Type} `{!PyNum num}.
Implicit Types (σ : state num) (l : loc) (s : Subscription num) (today : date)
  (h : gmap loc (Subscription num)).
Local Open Scope py_scope.

Lemma alter_live (f : Subscription num → Subscription num) h l s :
  h !! l = Some s → alter f l h = <[l := f s]> h.
Proof.
  intros Hl. apply map_eq. intros j. rewrite lookup_alter, lookup_insert.
  destruct (decide (l = j)) as [->|]; [by rewrite Hl | done].
Qed.

Lemma cancel_due_idem today s : cancel_due today (cancel_due today s) = cancel_due today s.
Proof.
  unfold cancel_due. destruct (due today s) eqn:E; [| by rewrite E].
  unfold due. simpl. done.
Qed.

Lemma foldl_alter_lookup (f : Subscription num → Subscription num) ls :
  (∀ s, f (f s) = f s) →
  ∀ h l, foldl (λ h' l', alter f l' h') h ls !! l
         = if decide (l ∈ ls) then f <$> h !! l else h !! l.
Proof.
  intros Hf. induction ls as [|l0 ls IH]; intros h l.
  - rewrite decide_False; [done | apply not_elem_of_nil].
  - cbn [foldl]. rewrite IH, lookup_alter. destruct (decide (l0 = l)) as [->|Hne].
    + rewrite (decide_True (P := l ∈ l :: ls)) by apply list_elem_of_here.
      destruct (decide (l ∈ ls)); [| done].
      destruct (h !! l); simpl; [by rewrite Hf | done].
    + destruct (decide (l ∈ ls)) as [Hin|Hnin].
      * by rewrite decide_True by by apply list_elem_of_further.
      * rewrite decide_False; [done |].
        rewrite not_elem_of_cons. split; [congruence | done].
Qed.

(** The loop of [auto_cancel_subscriptions] over live references. *)
Local Abbreviation auto_cancel_body today :=
  (λ sub : loc,
      a ← getattr active sub;
      if a : bool then
        r ← getattr renewal_date sub;
        if PyDate.le r today then Subscription_cancel sub else ret tt
      else ret tt).

Lemma auto_cancel_one today σ l s :
  heap σ !! l = Some s →
  auto_cancel_body today l σ = Some (Ok tt, store σ l (cancel_due today s)).
Proof.
  intros Hl. unfold bind at 1. rewrite (getattr_live _ _ _ _ Hl).
  unfold cancel_due, due. destruct (active s) eqn:Ea; simpl.
  - unfold bind. rewrite (getattr_live _ _ _ _ Hl).
    destruct (PyDate.le (renewal_date s) today).
    + apply (cancel_live _ _ _ Hl).
    + unfold ret. by rewrite store_same.
  - unfold ret. by rewrite store_same.
Qed.

Lemma auto_cancel_loop today ls : ∀ σ,
  Forall (λ l, is_Some (heap σ !! l)) ls →
  for_each (auto_cancel_body today) ls σ
  = Some (Ok tt, State (foldl (λ h' l', alter (cancel_due today) l' h') (heap σ) ls)
                       (_subscriptions σ)).
Proof.
  induction ls as [|l ls IH]; intros σ Hlive.
  - simpl. unfold ret. by rewrite state_eta.
  - apply Forall_cons in Hlive as [[s Hl] Hlive].
    cbn [for_each foldl]. unfold bind at 1.
    rewrite (auto_cancel_one _ _ _ _ Hl), IH.
    + unfold store. simpl. by rewrite (alter_live _ _ _ _ Hl).
    + eapply Forall_impl; [exact Hlive |]. intros l' [s' Hl']. simpl.
      rewrite lookup_insert. destruct (decide (l = l')); eauto.
Qed.

(** A comprehension whose condition and item only read the state. *)
Lemma comprehension_pure {A B} (cond : A → Py num bool) (item : A → Py num B)
    (c : A → bool) (f : A → B) (xs : list A) σ :
  Forall (λ x, cond x σ = Some (Ok (c x), σ) ∧ item x σ = Some (Ok (f x), σ)) xs →
  comprehension cond item xs σ = Some (Ok (f <$> filter (λ x, c x) xs), σ).
Proof.
  induction xs as [|x xs IH]; intros Hxs; simpl; [done |].
  apply Forall_cons in Hxs as [[Hc Hi] Hxs]. specialize (IH Hxs).
  unfold bind at 1. rewrite Hc. rewrite filter_cons.
  destruct (c x) eqn:Ec; simpl.
  - unfold bind at 1. rewrite Hi. unfold bind at 1. rewrite IH. done.
  - done.
Qed.

(** The same over references, in terms of the objects they point to. *)
Lemma comprehension_objects {B} (cond : loc → Py num bool) (item : loc → Py num B)
    (p : Subscription num → bool) (f : Subscription num → B) (ls : list loc) σ :
  (∀ l s, heap σ !! l = Some s →
     cond l σ = Some (Ok (p s), σ) ∧ item l σ = Some (Ok (f s), σ)) →
  Forall (λ l, is_Some (heap σ !! l)) ls →
  comprehension cond item ls σ
  = Some (Ok (f <$> filter (λ s, p s) (omap (λ l, heap σ !! l) ls)), σ).
Proof.
  intros Hpure. induction ls as [|l ls IH]; intros Hlive; simpl; [done |].
  apply Forall_cons in Hlive as [[s Hl] Hlive]. specialize (IH Hlive).
  destruct (Hpure _ _ Hl) as [Hc Hi].
  unfold bind at 1. rewrite Hc, Hl. simpl. rewrite filter_cons.
  destruct (p s) eqn:Ep; simpl.
  - unfold bind at 1. rewrite Hi. unfold bind at 1. rewrite IH. done.
  - done.
Qed.

Lemma omap_filter_active σ (ls : list loc) :
  Forall (λ l, is_Some (heap σ !! l)) ls →
  omap (λ l, heap σ !! l) (filter (λ l, is_active σ l) ls)
  = filter (λ s, active s) (omap (λ l, heap σ !! l) ls).
Proof.
  induction ls as [|l ls IH]; intros Hlive; [done |].
  apply Forall_cons in Hlive as [[s Hl] Hlive]. specialize (IH Hlive).
  assert (Ha : is_active σ l = active s) by (unfold is_active; by rewrite Hl).
  rewrite filter_cons. cbn [omap list_omap]. rewrite Hl. rewrite filter_cons.
  destruct (decide (is_active σ l)) as [Hact|Hact]; rewrite Ha in Hact.
  - rewrite decide_True by done. cbn [omap list_omap]. rewrite Hl. by f_equal.
  - by rewrite decide_False by done.
Qed.

Lemma Forall_live_filter σ (P : loc → Prop) `{!∀ l, Decision (P l)} (ls : list loc) :
  Forall (λ l, is_Some (heap σ !! l)) ls →
  Forall (λ l, is_Some (heap σ !! l)) (filter P ls).
Proof.
  intros Hlive. apply Forall_forall. intros l Hl.
  apply list_elem_of_filter in Hl as [_ Hl].
  by eapply Forall_forall in Hlive.
Qed.

End Loops.

(** ** What a call can change *)

Section Frame.
Context {num : Type} `{!PyNum num}.
Implicit Types (σ : state num) (l : loc) (s : Subscription num).
Local Open Scope py_scope.

Lemma names_stable_refl σ : names_stable σ σ.
Proof. intros l s Hl. eauto. Qed.

Lemma names_stable_trans σ1 σ2 σ3 :
  names_stable σ1 σ2 → names_stable σ2 σ3 → names_stable σ1 σ3.
Proof.
  intros H12 H23 l s Hl. destruct (H12 _ _ Hl) as (s2 & Hl2 & Hn2).
  destruct (H23 _ _ Hl2) as (s3 & Hl3 & Hn3). exists s3. split; [done | congruence].
Qed.

Lemma names_stable_heap σ d : names_stable σ (State (heap σ) d).
Proof. intros l s Hl. eauto. Qed.

Lemma names_stable_store σ l s s' :
  heap σ !! l = Some s → name s' = name s → names_stable σ (store σ l s').
Proof.
  intros Hl Hn l0 s0 Hl0. unfold store. simpl. rewrite lookup_insert.
  destruct (decide (l = l0)) as [->|]; [| eauto].
  exists s'. split; [done | congruence].
Qed.

Lemma names_stable_alloc σ l s :
  heap σ !! l = None → names_stable σ (store σ l s).
Proof.
  intros Hl l0 s0 Hl0. unfold store. simpl. rewrite lookup_insert.
  destruct (decide (l = l0)) as [->|]; [congruence | eauto].
Qed.

Lemma quiet_ret {A} (a : A) : quiet (num := num) (ret a).
Proof. intros σ r σ' [= <- <-]. split; [done | apply names_stable_refl]. Qed.

Lemma quiet_raise {A} e : quiet (num := num) (raise (A := A) e).
Proof. intros σ r σ' [= <- <-]. split; [done | apply names_stable_refl]. Qed.

Lemma quiet_lift {A} (x : result A) : quiet (num := num) (lift x).
Proof. intros σ r σ' [= <- <-]. split; [done | apply names_stable_refl]. Qed.

Lemma quiet_get_dict : quiet (num := num) get_dict.
Proof. intros σ r σ' [= <- <-]. split; [done | apply names_stable_refl]. Qed.

Lemma quiet_bind {A B} (m : Py num A) (k : A → Py num B) :
  quiet m → (∀ a, quiet (k a)) → quiet (bind m k).
Proof.
  intros Hm Hk σ r σ' Hrun. unfold bind in Hrun.
  destruct (m σ) as [[[a|e] σ1]|] eqn:E; [| |done].
  - destruct (Hm _ _ _ E) as [Hd1 Hn1]. destruct (Hk a _ _ _ Hrun) as [Hd2 Hn2].
    split; [congruence | by eapply names_stable_trans].
  - injection Hrun as <- <-. by apply (Hm _ _ _ E).
Qed.

Lemma quiet_getattr {A} (f : Subscription num → A) l : quiet (getattr f l).
Proof.
  intros σ r σ' Hrun. unfold getattr in Hrun. destruct (heap σ !! l); [| done].
  injection Hrun as <- <-. split; [done | apply names_stable_refl].
Qed.

Lemma quiet_setattr (upd : Subscription num → Subscription num) l :
  (∀ s, name (upd s) = name s) → quiet (setattr upd l).
Proof.
  intros Hupd σ r σ' Hrun. unfold setattr in Hrun.
  destruct (heap σ !! l) as [s|] eqn:Hl; [| done].
  injection Hrun as <- <-. split; [done |]. by apply (names_stable_store _ _ s).
Qed.

Lemma quiet_for_each {A} (body : A → Py num unit) xs :
  (∀ x, quiet (body x)) → quiet (for_each body xs).
Proof.
  intros Hb. induction xs as [|x xs IH]; simpl; [apply quiet_ret |].
  apply quiet_bind; [apply Hb | done].
Qed.

Lemma quiet_comprehension {A B} (cond : A → Py num bool) (item : A → Py num B) xs :
  (∀ x, quiet (cond x)) → (∀ x, quiet (item x)) → quiet (comprehension cond item xs).
Proof.
  intros Hc Hi. induction xs as [|x xs IH]; simpl; [apply quiet_ret |].
  apply quiet_bind; [apply Hc |]. intros [|]; [| done].
  apply quiet_bind; [apply Hi |]. intros y.
  apply quiet_bind; [done |]. intros ys. apply quiet_ret.
Qed.

Lemma quiet_init n (c : num) r a : quiet (Subscription_init n c r a).
Proof.
  intros σ res σ' [= <- <-]. split; [done |].
  apply (names_stable_alloc σ). apply not_elem_of_dom. apply is_fresh.
Qed.

Lemma quiet_cancel l : quiet (num := num) (Subscription_cancel l).
Proof. by apply quiet_setattr. Qed.

Lemma quiet_renew clock l today : quiet (num := num) (Subscription_renew clock l today).
Proof.
  unfold Subscription_renew. apply quiet_bind; [by apply quiet_setattr |].
  intros _. apply quiet_bind; [apply quiet_lift |]. intros d. by apply quiet_setattr.
Qed.

Lemma quiet_getitem n : quiet (num := num) (getitem n).
Proof.
  unfold getitem. apply quiet_bind; [apply quiet_get_dict |]. intros d.
  destruct (PyDict.get n d); [apply quiet_ret | apply quiet_raise].
Qed.

Lemma quiet_auto_cancel clock today : quiet (num := num) (auto_cancel_subscriptions clock today).
Proof.
  unfold auto_cancel_subscriptions. apply quiet_bind; [apply quiet_get_dict |].
  intros d. apply quiet_for_each. intros l.
  apply quiet_bind; [apply quiet_getattr |]. intros [|]; [| apply quiet_ret].
  apply quiet_bind; [apply quiet_getattr |]. intros r.
  destruct (PyDate.le r _); [apply quiet_cancel | apply quiet_ret].
Qed.

Lemma quiet_renew_subscription clock n today :
  quiet (num := num) (renew_subscription clock n today).
Proof.
  unfold renew_subscription. apply quiet_bind; [apply quiet_get_dict |]. intros d.
  destruct (negb _); [apply quiet_raise |].
  apply quiet_bind; [apply quiet_getitem |]. intros l. apply quiet_renew.
Qed.

Lemma quiet_cancel_subscription n : quiet (num := num) (cancel_subscription n).
Proof.
  unfold cancel_subscription. apply quiet_bind; [apply quiet_get_dict |]. intros d.
  destruct (negb _); [apply quiet_raise |].
  apply quiet_bind; [apply quiet_getitem |]. intros l. apply quiet_cancel.
Qed.

Lemma quiet_get_subscription n : quiet (num := num) (get_subscription n).
Proof.
  unfold get_subscription. apply quiet_bind; [apply quiet_get_dict |]. intros d.
  destruct (negb _); [apply quiet_raise | apply quiet_getitem].
Qed.

Lemma quiet_list b : quiet (num := num) (list_subscriptions b).
Proof.
  unfold list_subscriptions. apply quiet_bind; [apply quiet_get_dict |]. intros d.
  destruct b; [| apply quiet_ret].
  apply quiet_comprehension; intros l; [apply quiet_getattr | apply quiet_ret].
Qed.

Lemma quiet_total_monthly_cost b : quiet (num := num) (total_monthly_cost b).
Proof.
  unfold total_monthly_cost. apply quiet_bind; [apply quiet_list |]. intros subs.
  apply quiet_bind; [| intros; apply quiet_ret].
  apply quiet_comprehension; intros l; [apply quiet_ret | apply quiet_getattr].
Qed.

Lemma quiet_total_savings : quiet (num := num) total_savings.
Proof.
  unfold total_savings. apply quiet_bind; [apply quiet_list |]. intros subs.
  apply quiet_bind; [| intros; apply quiet_ret].
  apply quiet_comprehension; intros l; [| apply quiet_getattr].
  apply quiet_bind; [apply quiet_getattr | intros; apply quiet_ret].
Qed.

Lemma quiet_then {A B} (m : Py num A) (f : A → B) :
  quiet m → quiet (bind m (λ a, ret (f a))).
Proof. intros Hm. apply quiet_bind; [done | intros; apply quiet_ret]. Qed.

End Frame.

(** ** The invariant of the manager *)

Section Invariant.
Context {num : Type} `{!PyNum num}.
Implicit Types (σ : state num) (l : loc) (s : Subscription num).
Local Open Scope py_scope.

Lemma bind_ret_inv {A B} (m : Py num A) (f : A → B) σ r σ' :
  bind m (λ a, ret (f a)) σ = Some (r, σ') →
  ∃ r0, m σ = Some (r0, σ')
        ∧ r = match r0 with Ok a => Ok (f a) | Raise e => Raise e end.
Proof.
  unfold bind, ret. destruct (m σ) as [[[a|e] σ1]|]; [| |done].
  - intros [= <- <-]. by exists (Ok a).
  - intros [= <- <-]. by exists (Raise e).
Qed.

Lemma add_effect l σ (r : result unit) σ' :
  add_subscription l σ = Some (r, σ') →
  names_stable σ σ'
  ∧ match r with
    | Ok _ => ∃ s, heap σ !! l = Some s
                   ∧ PyDict.get (name s) (_subscriptions σ) = None
                   ∧ _subscriptions σ' = _subscriptions σ ++ [(name s, l)]
    | Raise _ => _subscriptions σ' = _subscriptions σ
    end.
Proof.
  intros Hrun. destruct (heap σ !! l) as [s|] eqn:Hl.
  - destruct (PyDict.contains (name s) (_subscriptions σ)) eqn:Hc.
    + rewrite (add_duplicate _ _ _ Hl Hc) in Hrun. injection Hrun as <- <-.
      split; [apply names_stable_refl | done].
    + rewrite (add_fresh _ _ _ Hl Hc) in Hrun. injection Hrun as <- <-.
      split; [apply names_stable_heap |]. exists s.
      split; [done |]. split; [by apply PyDictFacts.contains_false_get | done].
  - unfold add_subscription, bind, getattr in Hrun. by rewrite Hl in Hrun.
Qed.

Lemma remove_effect n σ (r : result unit) σ' :
  remove_subscription n σ = Some (r, σ') →
  names_stable σ σ'
  ∧ match r with
    | Ok _ => _subscriptions σ' = PyDict.del n (_subscriptions σ)
    | Raise _ => _subscriptions σ' = _subscriptions σ
    end.
Proof.
  intros Hrun. destruct (PyDict.contains n (_subscriptions σ)) eqn:Hc.
  - rewrite (remove_present _ _ Hc) in Hrun. injection Hrun as <- <-.
    split; [apply names_stable_heap | done].
  - rewrite (remove_absent _ _ Hc) in Hrun. injection Hrun as <- <-.
    split; [apply names_stable_refl | done].
Qed.

Lemma exec_effect clock c σ r σ' :
  exec clock c σ = Some (r, σ') → names_stable σ σ' ∧ dict_step c r σ σ'.
Proof.
  destruct c; simpl; intros Hrun;
    try (match type of Hrun with
         | bind ?m _ _ = _ =>
             assert (Hq : quiet m) by
               first [ apply quiet_init | apply quiet_cancel | apply quiet_renew
                     | apply quiet_auto_cancel | apply quiet_renew_subscription
                     | apply quiet_cancel_subscription | apply quiet_get_subscription
                     | apply quiet_list | apply quiet_total_monthly_cost
                     | apply quiet_total_savings ]
         end;
         apply bind_ret_inv in Hrun as (r0 & Hrun & ->);
         destruct (Hq _ _ _ Hrun) as [Hd Hn]; split; [done |];
         by destruct r0).
  - apply bind_ret_inv in Hrun as (r0 & Hrun & ->).
    destruct (add_effect _ _ _ _ Hrun) as [Hn Hd]. split; [done |]. by destruct r0.
  - apply bind_ret_inv in Hrun as (r0 & Hrun & ->).
    destruct (remove_effect _ _ _ _ Hrun) as [Hn Hd]. split; [done |]. by destruct r0.
Qed.

Lemma key_is_name_stable σ σ' (d : PyDict.t loc) :
  names_stable σ σ' →
  Forall (λ kv, name <$> heap σ !! kv.2 = Some kv.1) d →
  Forall (λ kv, name <$> heap σ' !! kv.2 = Some kv.1) d.
Proof.
  intros Hn HF. eapply Forall_impl; [exact HF |]. intros [k l]. simpl.
  destruct (heap σ !! l) as [s|] eqn:Hl; [| done]. simpl. intros [= <-].
  destruct (Hn _ _ Hl) as (s' & -> & Hs'). simpl. by rewrite Hs'.
Qed.

Lemma manager_inv_step c r σ σ' :
  manager_inv σ → names_stable σ σ' → dict_step c r σ σ' → manager_inv σ'.
Proof.
  intros [Hwf Hkey] Hn Hd. unfold manager_inv, key_is_name.
  pose proof (key_is_name_stable _ _ _ Hn Hkey) as Hkey'.
  assert (Hsame : _subscriptions σ' = _subscriptions σ → manager_inv σ').
  { intros E. unfold manager_inv, key_is_name. by rewrite E. }
  destruct c; try (destruct r; by apply Hsame).
  - destruct r as [v|e]; [| by apply Hsame].
    destruct Hd as (s & Hl & Hg & ->). split.
    + by apply PyDictFacts.wf_app_fresh.
    + apply Forall_app. split; [done |]. apply Forall_singleton. simpl.
      destruct (Hn _ _ Hl) as (s' & -> & Hs'). simpl. by rewrite Hs'.
  - destruct r as [v|e]; [| by apply Hsame].
    simpl in Hd. rewrite Hd. split.
    + by apply PyDictFacts.wf_del.
    + apply Forall_forall. intros kv Hkv.
      apply list_elem_of_filter in Hkv as [_ Hkv].
      by eapply Forall_forall in Hkey'.
Qed.

Lemma exec_manager_inv clock c σ r σ' :
  manager_inv σ → exec clock c σ = Some (r, σ') → manager_inv σ'.
Proof.
  intros Hinv Hrun. destruct (exec_effect _ _ _ _ _ Hrun) as [Hn Hd].
  by eapply manager_inv_step.
Qed.

Lemma init_manager_inv : manager_inv (num := num) init.
Proof. split; [apply NoDup_nil_2 | apply Forall_nil_2]. Qed.

Lemma reachable_manager_inv σ : reachable σ → manager_inv σ.
Proof.
  induction 1 as [|σ clock c r σ' _ IH Hrun]; [apply init_manager_inv |].
  by eapply exec_manager_inv.
Qed.

Lemma manager_inv_closed σ : key_is_name σ → heap_closed σ.
Proof.
  unfold key_is_name, heap_closed, PyDict.values. intros Hkey.
  apply Forall_fmap. eapply Forall_impl; [exact Hkey |]. intros [k l]. simpl.
  destruct (heap σ !! l); [eauto | done].
Qed.

Lemma names_are_keys σ :
  key_is_name σ → name <$> subscriptions_of σ = PyDict.keys (_subscriptions σ).
Proof.
  unfold key_is_name, subscriptions_of, PyDict.keys, PyDict.values.
  induction (_subscriptions σ) as [|[k l] d IH]; [done |].
  intros Hkey. apply Forall_cons in Hkey as [Hk Hkey]. specialize (IH Hkey).
  simpl in *. destruct (heap σ !! l) as [s|]; [| done].
  simpl in *. injection Hk as <-. f_equal. exact IH.
Qed.

(** Distinct entries are distinct objects: deleting a key removes
    exactly its object from the values. *)
Lemma values_del σ n l :
  manager_inv σ →
  PyDict.get n (_subscriptions σ) = Some l →
  PyDict.values (PyDict.del n (_subscriptions σ))
  = filter (λ l', l' ≠ l) (PyDict.values (_subscriptions σ)).
Proof.
  intros [Hwf Hkey] Hg.
  assert (Hiff : Forall (λ kv, kv.1 ≠ n ↔ kv.2 ≠ l) (_subscriptions σ)).
  { apply Forall_forall. intros [k l'] Hin. simpl.
    pose proof (PyDictFacts.elem_get _ _ _ Hwf Hin) as Hk.
    pose proof (PyDictFacts.get_Some_elem _ _ _ Hg) as Hin'.
    unfold key_is_name in Hkey. rewrite Forall_forall in Hkey.
    pose proof (Hkey _ Hin) as H1. pose proof (Hkey _ Hin') as H2.
    simpl in H1, H2. split.
    - intros Hne ->. congruence.
    - intros Hne ->. congruence. }
  clear Hwf Hkey Hg. unfold PyDict.values, PyDict.del.
  induction (_subscriptions σ) as [|[k l'] d IH]; [done |].
  apply Forall_cons in Hiff as [Hh Hiff]. specialize (IH Hiff). simpl in Hh.
  rewrite fmap_cons, !filter_cons. simpl.
  destruct (decide (k ≠ n)) as [Hk|Hk].
  - rewrite decide_True by by apply Hh. by rewrite fmap_cons, IH.
  - rewrite decide_False; [done |]. intros Hl'. by apply Hk, Hh.
Qed.

End Invariant.

(** ** Sessions *)

Section Sessions.
Context {num : Type} `{!PyNum num}.
Implicit Types (σ : state num) (l : loc) (s : Subscription num)
  (evs : list (@event num)).
Local Open Scope py_scope.

(** The entries that no later successful removal deletes. *)
Local Abbreviation kept evs :=
  (λ kv : string * loc, removed_later (Some kv.1) evs = false).

Lemma run_cons_inv clock c calls σ evs σ' :
  run ((clock, c) :: calls) σ = Some (evs, σ') →
  ∃ r σ1 evs', exec clock c σ = Some (r, σ1)
               ∧ run calls σ1 = Some (evs', σ')
               ∧ evs = (c, r) :: evs'.
Proof.
  simpl. destruct (exec clock c σ) as [[r σ1]|]; [| done].
  destruct (run calls σ1) as [[evs' σ2]|] eqn:E; [| done].
  intros [= <- <-]. by exists r, σ1, evs'.
Qed.

Lemma run_reachable calls : ∀ σ evs σ',
  reachable σ → run calls σ = Some (evs, σ') → reachable σ'.
Proof.
  induction calls as [|[clock c] calls IH]; intros σ evs σ' Hreach Hrun.
  - simpl in Hrun. by injection Hrun as <- <-.
  - apply run_cons_inv in Hrun as (r & σ1 & evs' & Hexec & Hrun & ->).
    eapply IH; [| exact Hrun]. by eapply reachable_step.
Qed.

Lemma run_names_stable calls : ∀ σ evs σ',
  run calls σ = Some (evs, σ') → names_stable σ σ'.
Proof.
  induction calls as [|[clock c] calls IH]; intros σ evs σ' Hrun.
  - simpl in Hrun. injection Hrun as <- <-. apply names_stable_refl.
  - apply run_cons_inv in Hrun as (r & σ1 & evs' & Hexec & Hrun & ->).
    eapply names_stable_trans; [| by eapply IH].
    by apply exec_effect in Hexec as [? _].
Qed.

Lemma filter_kept_nil (d : PyDict.t loc) :
  filter (kept ([] : list (@event num))) d = d.
Proof.
  induction d as [|kv d IH]; [done |].
  rewrite filter_cons_True by done. by rewrite IH.
Qed.

Lemma step_values c r σ0 σ1 (nm : loc → option string) evs :
  dict_step c r σ0 σ1 →
  (∀ l s, heap σ0 !! l = Some s → nm l = Some (name s)) →
  PyDict.values (filter (kept evs) (_subscriptions σ1)) ++ surviving_adds nm evs
  = PyDict.values (filter (kept ((c, r) :: evs)) (_subscriptions σ0))
    ++ surviving_adds nm ((c, r) :: evs).
Proof.
  intros Hd Hnm. destruct c; destruct r as [v|e]; simpl in Hd;
    try (rewrite Hd; reflexivity).
  - destruct Hd as (s & Hl & Hg & ->). unfold PyDict.values.
    rewrite filter_app, fmap_app. cbn [surviving_adds]. rewrite (Hnm _ _ Hl).
    change (filter (kept ((CAdd subscription, Ok v) :: evs)) (_subscriptions σ0))
      with (filter (kept evs) (_subscriptions σ0)).
    rewrite (filter_singleton _ _ []). simpl.
    destruct (removed_later (Some (name s)) evs) eqn:E.
    + rewrite decide_False by done. simpl. by rewrite app_nil_r.
    + rewrite decide_True by done. simpl. by rewrite <- app_assoc.
  - rewrite Hd. unfold PyDict.del. rewrite list_filter_filter.
    cbn [surviving_adds]. do 2 f_equal. apply list_filter_iff.
    intros [k l]. simpl. destruct (removed_later (Some k) evs).
    + rewrite orb_true_r. split; [by intros [? _] | done].
    + rewrite orb_false_r. split.
      * intros [_ Hne]. apply bool_decide_eq_false. congruence.
      * intros Hb. apply bool_decide_eq_false in Hb. split; [done | congruence].
Qed.

Lemma run_values calls : ∀ σ0 evs σ,
  run calls σ0 = Some (evs, σ) →
  PyDict.values (_subscriptions σ)
  = PyDict.values (filter (kept evs) (_subscriptions σ0))
    ++ surviving_adds (object_name σ) evs.
Proof.
  induction calls as [|[clock c] calls IH]; intros σ0 evs σ Hrun.
  - simpl in Hrun. injection Hrun as <- <-. rewrite filter_kept_nil. simpl. by rewrite app_nil_r.
  - apply run_cons_inv in Hrun as (r & σ1 & evs' & Hexec & Hrun & ->).
    rewrite (IH _ _ _ Hrun). apply exec_effect in Hexec as [Hn Hd].
    apply step_values; [done |]. intros l s Hl.
    pose proof (run_names_stable _ _ _ _ Hrun) as Hn'.
    destruct (names_stable_trans _ _ _ Hn Hn' _ _ Hl) as (s' & Hl' & Hs').
    unfold object_name. rewrite Hl'. simpl. by rewrite Hs'.
Qed.

Lemma list_all σ :
  list_subscriptions false σ = Some (Ok (PyDict.values (_subscriptions σ)), σ).
Proof. done. Qed.

Lemma list_active σ :
  heap_closed σ →
  list_subscriptions true σ
  = Some (Ok (filter (λ l, is_active σ l) (PyDict.values (_subscriptions σ))), σ).
Proof.
  intros Hclosed. unfold list_subscriptions, bind, get_dict.
  rewrite (comprehension_pure _ _ (is_active σ) id).
  - by rewrite list_fmap_id.
  - eapply Forall_impl; [exact Hclosed |]. intros l [s Hl]. simpl.
    split; [| done]. unfold is_active. rewrite (getattr_live _ _ _ _ Hl).
    by rewrite Hl.
Qed.

End Sessions.

(** ** Aggregate queries *)

Section Aggregates.
Context {num : Type} `{!PyNum num}.
Implicit Types (σ : state num) (l : loc) (s : Subscription num).
Local Open Scope py_scope.

Lemma filter_true {A} (xs : list A) : filter (λ _ : A, true) xs = xs.
Proof.
  induction xs as [|x xs IH]; [done |].
  rewrite filter_cons_True by done. by rewrite IH.
Qed.

Lemma costs_of_live σ (ls : list loc) :
  Forall (λ l, is_Some (heap σ !! l)) ls →
  comprehension (λ _, ret true) (getattr cost) ls σ
  = Some (Ok (cost <$> omap (λ l, heap σ !! l) ls), σ).
Proof.
  intros Hlive.
  rewrite (comprehension_objects _ _ (λ _, true) cost _ σ); [| | done].
  - by rewrite filter_true.
  - intros l s Hl. split; [done | by apply getattr_live].
Qed.

Lemma total_monthly_cost_all σ :
  heap_closed σ →
  total_monthly_cost false σ
  = Some (Ok (py_sum (cost <$> subscriptions_of σ)), σ).
Proof.
  intros Hclosed. unfold total_monthly_cost, bind. rewrite list_all.
  by rewrite (costs_of_live _ _ Hclosed).
Qed.

Lemma total_monthly_cost_active σ :
  heap_closed σ →
  total_monthly_cost true σ
  = Some (Ok (py_sum (cost <$> filter (λ s, active s) (subscriptions_of σ))), σ).
Proof.
  intros Hclosed. unfold total_monthly_cost, bind. rewrite (list_active _ Hclosed).
  rewrite costs_of_live by by apply Forall_live_filter.
  by rewrite (omap_filter_active _ _ Hclosed).
Qed.

Lemma total_savings_inactive σ :
  heap_closed σ →
  total_savings σ
  = Some (Ok (py_sum (cost <$> filter (λ s, inactive s) (subscriptions_of σ))), σ).
Proof.
  intros Hclosed. unfold total_savings, bind at 1. rewrite list_all.
  unfold bind at 1.
  rewrite (comprehension_objects _ _ inactive cost _ σ); [done | | done].
  intros l s Hl. split; [| by apply getattr_live].
  unfold bind. by rewrite (getattr_live _ _ _ _ Hl).
Qed.

End Aggregates.

(** ** Sums over exact numbers *)

Section ExactArithmetic.
Context {num : Type} `{!PyNum num}.
Hypothesis add_assoc : ∀ x y z : num, num_add x (num_add y z) = num_add (num_add x y) z.
Hypothesis add_comm : ∀ x y : num, num_add x y = num_add y x.
Hypothesis add_zero_l : ∀ x : num, num_add num_zero x = x.

Lemma foldl_add_from (a : num) xs : foldl num_add a xs = num_add a (py_sum xs).
Proof.
  unfold py_sum. revert a. induction xs as [|x xs IH]; intros a; simpl.
  - by rewrite add_comm, add_zero_l.
  - rewrite IH, (IH (num_add num_zero x)), add_zero_l. by rewrite add_assoc.
Qed.

Lemma py_sum_cons (x : num) xs : py_sum (x :: xs) = num_add x (py_sum xs).
Proof.
  unfold py_sum at 1. simpl. by rewrite foldl_add_from, add_zero_l.
Qed.

(** A sum splits along any partition of its items. *)
Lemma py_sum_partition {A} (p : A → bool) (f : A → num) (xs : list A) :
  py_sum (f <$> xs)
  = num_add (py_sum (f <$> filter (λ x, p x) xs))
            (py_sum (f <$> filter (λ x, negb (p x)) xs)).
Proof.
  induction xs as [|x xs IH]; [by rewrite add_zero_l |].
  rewrite fmap_cons, py_sum_cons, IH, !filter_cons.
  destruct (p x) eqn:Ep.
  - rewrite decide_True, decide_False by (simpl; tauto).
    by rewrite fmap_cons, py_sum_cons, add_assoc.
  - rewrite decide_False, decide_True by (simpl; tauto).
    rewrite fmap_cons, py_sum_cons, !add_assoc. f_equal. apply add_comm.
Qed.

End ExactArithmetic.

(** ** Sums of costs counted in units *)

Section UnitArithmetic.
Context {num : Type} `{!PyNum num}.
Variables (amount : Z → num) (bound : Z).
Hypothesis exact : adds_exactly amount bound.
Local Open Scope Z_scope.







End UnitArithmetic.

(** * The properties of the specification *)

Section Claims.
Context {num : Type} `{!PyNum num}.
Implicit Types (σ : state num) (l : loc) (s : Subscription num) (d clock : date)
  (n : string).

(** C1: with an explicit reference date [today],
    [auto_cancel_subscriptions] returns normally, leaves the dictionary as
    it was, turns every managed subscription that is active with
    [renewal_date <= today] into the same record with [active = False],
    and leaves every other object, managed or not, inactive or not yet
    due, exactly as it was. *)
Theorem auto_cancel_cancels_exactly_the_due clock today σ :
  heap_closed σ →
  ∃ σ',
    auto_cancel_subscriptions clock (Some today) σ = Some (Ok tt, σ')
    ∧ _subscriptions σ' = _subscriptions σ
    ∧ (∀ l s, managed σ l → heap σ !! l = Some s → due today s = true →
         heap σ' !! l
         = Some (mkSubscription (name s) (cost s) (renewal_date s) false))
    ∧ (∀ l s, heap σ !! l = Some s → due today s = false →
         heap σ' !! l = Some s)
    ∧ (∀ l, ¬ managed σ l → heap σ' !! l = heap σ !! l).
Proof.
  intros Hclosed. eexists. split; [| split; [| split; [| split]]].
  - unfold auto_cancel_subscriptions, bind, get_dict. simpl.
    apply (auto_cancel_loop today _ σ Hclosed).
  - done.
  - intros l s Hm Hl Hdue. simpl.
    rewrite foldl_alter_lookup by apply cancel_due_idem.
    rewrite decide_True by exact Hm. rewrite Hl. simpl.
    unfold cancel_due. by rewrite Hdue.
  - intros l s Hl Hdue. simpl.
    rewrite foldl_alter_lookup by apply cancel_due_idem.
    rewrite Hl. destruct (decide _); [| done]. simpl.
    unfold cancel_due. by rewrite Hdue.
  - intros l Hm. simpl.
    rewrite foldl_alter_lookup by apply cancel_due_idem.
    by rewrite decide_False by exact Hm.
Qed.

(** C2 (amended): for a subscription in any prior state and an explicit
    date [d] with [d + 30 days] not after 9999-12-31, [renew(d)], called
    on the subscription or through the manager by an existing name,
    returns normally and leaves the subscription with [active = True],
    [renewal_date = d + 30 days] whatever the stored date was, and the
    same [name] and [cost]; nothing else changes. *)
Theorem renew_activates_and_sets_date clock σ l s d :
  heap σ !! l = Some s →
  PyDate.valid d →
  (toordinal d + 30 ≤ PyDate.MAXORDINAL)%Z →
  let renewed := mkSubscription (name s) (cost s) (Date (toordinal d + 30)) true in
  Subscription_renew clock l (Some d) σ = Some (Ok tt, store σ l renewed)
  ∧ ∀ n, PyDict.get n (_subscriptions σ) = Some l →
      renew_subscription clock n (Some d) σ = Some (Ok tt, store σ l renewed).
Proof.
  intros Hl [Hlo _] Hhi renewed.
  assert (Hadd : PyDate.add_days d 30 = Ok (Date (toordinal d + 30))).
  { apply add_days_in_range. unfold PyDate.MINORDINAL in Hlo. lia. }
  pose proof (renew_live clock σ l s (Some d) _ Hl Hadd) as Hrenew.
  split; [exact Hrenew |]. intros n Hg.
  by rewrite (renew_subscription_present _ _ _ _ _ Hg).
Qed.

(** C3: [add_subscription] raises [ValueError] exactly when the name of
    the subscription is already a key, and then the state is untouched;
    for a fresh name it returns normally and appends the entry under
    that name, so that the name now resolves to the subscription and
    every other key resolves as before. *)
Theorem add_rejects_exactly_the_duplicates σ l s :
  heap σ !! l = Some s →
  let d' := _subscriptions σ ++ [(name s, l)] in
  (name s ∈ PyDict.keys (_subscriptions σ) →
     add_subscription l σ = Some (Raise ValueError, σ))
  ∧ (name s ∉ PyDict.keys (_subscriptions σ) →
     add_subscription l σ = Some (Ok tt, State (heap σ) d')
     ∧ PyDict.get (name s) d' = Some l
     ∧ ∀ k, k ≠ name s → PyDict.get k d' = PyDict.get k (_subscriptions σ))
  ∧ ((∃ σ', add_subscription l σ = Some (Raise ValueError, σ'))
     ↔ name s ∈ PyDict.keys (_subscriptions σ)).
Proof.
  intros Hl d'. split; [| split].
  - intros Hin. apply (add_duplicate _ _ _ Hl).
    by apply PyDictFacts.contains_true.
  - intros Hnin. apply PyDictFacts.contains_false in Hnin.
    split; [by apply add_fresh |]. split.
    + apply PyDictFacts.get_app_fresh. by apply PyDictFacts.contains_false_get.
    + intros k Hk. by apply PyDictFacts.get_app_other.
  - split.
    + intros [σ' Hrun].
      destruct (PyDict.contains (name s) (_subscriptions σ)) eqn:Hc.
      * by apply PyDictFacts.contains_true.
      * by rewrite (add_fresh _ _ _ Hl Hc) in Hrun.
    + intros Hin. exists σ. apply (add_duplicate _ _ _ Hl).
      by apply PyDictFacts.contains_true.
Qed.

(** C4: for a name that is not a key, [remove_subscription],
    [get_subscription], [renew_subscription] and [cancel_subscription]
    each raise [KeyError] and leave the state as it was; and whatever a
    first [remove_subscription] of a name did, a second one right after
    it raises [KeyError]. *)
Theorem absent_name_raises_KeyError clock σ n (today : option date) :
  (n ∉ PyDict.keys (_subscriptions σ) →
     remove_subscription n σ = Some (Raise KeyError, σ)
     ∧ get_subscription n σ = Some (Raise KeyError, σ)
     ∧ renew_subscription clock n today σ = Some (Raise KeyError, σ)
     ∧ cancel_subscription n σ = Some (Raise KeyError, σ))
  ∧ (∀ r σ', remove_subscription n σ = Some (r, σ') →
       remove_subscription n σ' = Some (Raise KeyError, σ')).
Proof.
  split.
  - intros Hnin. apply PyDictFacts.contains_false in Hnin.
    unfold remove_subscription, get_subscription, renew_subscription,
      cancel_subscription, bind, get_dict. by rewrite Hnin.
  - intros r σ' Hrun. apply remove_absent.
    destruct (PyDict.contains n (_subscriptions σ)) eqn:Hc.
    + rewrite (remove_present _ _ Hc) in Hrun. injection Hrun as <- <-.
      apply PyDictFacts.contains_del.
    + rewrite (remove_absent _ _ Hc) in Hrun. by injection Hrun as <- <-.
Qed.

(** C5: [total_monthly_cost(True)] is the sum of the costs of the active
    subscriptions, [total_monthly_cost(False)] of all of them and
    [total_savings()] of the inactive ones, each taken in dictionary
    order; each is [0] when nothing is selected, in particular for the
    empty manager; and each query returns the state it was given. *)
Theorem totals_sum_the_selected_costs σ :
  heap_closed σ →
  let subs := subscriptions_of σ in
  total_monthly_cost true σ
    = Some (Ok (py_sum (cost <$> filter (λ s, active s) subs)), σ)
  ∧ total_monthly_cost false σ = Some (Ok (py_sum (cost <$> subs)), σ)
  ∧ total_savings σ
    = Some (Ok (py_sum (cost <$> filter (λ s, inactive s) subs)), σ)
  ∧ (filter (λ s, active s) subs = [] →
       total_monthly_cost true σ = Some (Ok num_zero, σ))
  ∧ (subs = [] → total_monthly_cost false σ = Some (Ok num_zero, σ))
  ∧ (filter (λ s, inactive s) subs = [] →
       total_savings σ = Some (Ok num_zero, σ))
  ∧ total_monthly_cost true init = Some (Ok num_zero, init)
  ∧ total_monthly_cost false init = Some (Ok num_zero, init)
  ∧ total_savings init = Some (Ok num_zero, init).
Proof.
  intros Hclosed subs.
  pose proof (total_monthly_cost_active _ Hclosed) as Ha.
  pose proof (total_monthly_cost_all _ Hclosed) as Hall.
  pose proof (total_savings_inactive _ Hclosed) as Hs.
  fold subs in Ha, Hall, Hs.
  repeat split; try done.
  - intros E. by rewrite Ha, E.
  - intros E. by rewrite Hall, E.
  - intros E. by rewrite Hs, E.
Qed.

(** C6: after any session that starts from a new manager,
    [list_subscriptions(False)] returns the subscriptions of the
    successful [add_subscription] calls whose entry was not removed
    since, in the order of those calls; [list_subscriptions(True)]
    returns the active ones among them in the same order; and removing
    a name deletes its subscription from the listing and keeps the
    others in their order. *)
Theorem listing_follows_insertion_order calls evs σ :
  run calls init = Some (evs, σ) →
  let listed := surviving_adds (object_name σ) evs in
  list_subscriptions false σ = Some (Ok listed, σ)
  ∧ list_subscriptions true σ
    = Some (Ok (filter (λ l, is_active σ l) listed), σ)
  ∧ ∀ n l, PyDict.get n (_subscriptions σ) = Some l →
      ∃ σ', remove_subscription n σ = Some (Ok tt, σ')
            ∧ list_subscriptions false σ'
              = Some (Ok (filter (λ l', l' ≠ l) listed), σ').
Proof.
  intros Hrun listed.
  pose proof (run_values _ _ _ _ Hrun) as Hvals. simpl in Hvals.
  fold listed in Hvals.
  assert (Hinv : manager_inv σ).
  { apply reachable_manager_inv.
    eapply run_reachable; [apply reachable_init | exact Hrun]. }
  pose proof (manager_inv_closed _ (proj2 Hinv)) as Hclosed.
  split; [| split].
  - by rewrite list_all, Hvals.
  - by rewrite (list_active _ Hclosed), Hvals.
  - intros n l Hg. eexists. split.
    + apply remove_present. by eapply PyDictFacts.get_Some_contains.
    + rewrite list_all. simpl. by rewrite (values_del _ _ _ Hinv Hg), Hvals.
Qed.

(** C7: in every state reached by constructing subscriptions, calling
    their methods and calling the manager, the keys of the dictionary
    are pairwise distinct and each is the [name] of the subscription
    stored under it, so no two entries share a name; and every call,
    however it ends, takes a state with this invariant to one with it. *)
Theorem keys_are_the_names :
  (∀ σ, reachable σ →
     manager_inv σ ∧ NoDup (name <$> subscriptions_of σ))
  ∧ (∀ σ clock c r σ',
       manager_inv σ → exec clock c σ = Some (r, σ') → manager_inv σ').
Proof.
  split.
  - intros σ Hreach. pose proof (reachable_manager_inv _ Hreach) as Hinv.
    split; [done |]. destruct Hinv as [Hwf Hkey].
    by rewrite (names_are_keys _ Hkey).
  - intros σ clock c r σ'. apply exec_manager_inv.
Qed.

(** C8: [cancel()] returns normally and replaces the subscription by
    the record with the same [name], [cost] and [renewal_date] and
    [active = False]; no other object and no dictionary entry changes;
    cancelling again, or cancelling a subscription that is already
    inactive, leaves the state as it is; [cancel_subscription] on a name
    that resolves to the subscription does the same. *)
Theorem cancel_only_clears_active σ l s :
  heap σ !! l = Some s →
  let σ1 := store σ l (mkSubscription (name s) (cost s) (renewal_date s) false) in
  Subscription_cancel l σ = Some (Ok tt, σ1)
  ∧ Subscription_cancel l σ1 = Some (Ok tt, σ1)
  ∧ (active s = false → σ1 = σ)
  ∧ _subscriptions σ1 = _subscriptions σ
  ∧ (∀ l', l' ≠ l → heap σ1 !! l' = heap σ !! l')
  ∧ ∀ n, PyDict.get n (_subscriptions σ) = Some l →
      cancel_subscription n σ = Some (Ok tt, σ1)
      ∧ cancel_subscription n σ1 = Some (Ok tt, σ1).
Proof.
  intros Hl σ1.
  assert (H1 : Subscription_cancel l σ = Some (Ok tt, σ1)) by apply (cancel_live _ _ _ Hl).
  assert (H2 : Subscription_cancel l σ1 = Some (Ok tt, σ1)).
  { erewrite cancel_live by apply lookup_insert_eq.
    unfold σ1. by rewrite store_store. }
  split; [done |]. split; [done |]. split; [| split; [done | split]].
  - intros Ha. unfold σ1. rewrite <- Ha. apply store_same. by destruct s.
  - intros l' Hne. simpl. by rewrite lookup_insert_ne.
  - intros n Hg. split.
    + by rewrite (cancel_subscription_present _ _ _ Hg).
    + by rewrite (cancel_subscription_present σ1 _ _ Hg).
Qed.

(** C9 (amended): the constructor puts the new subscription at a
    location that held no object; its [active] flag is [True] when the
    argument is omitted and is the argument when one is given; the other
    fields are the arguments. *)
Theorem constructor_defaults_active n (c : num) d (b : bool) σ :
  let self := fresh (dom (heap σ)) in
  heap σ !! self = None
  ∧ Subscription_init n c d None σ
    = Some (Ok self, store σ self (mkSubscription n c d true))
  ∧ Subscription_init n c d (Some b) σ
    = Some (Ok self, store σ self (mkSubscription n c d b)).
Proof.
  intros self. split; [| done].
  apply not_elem_of_dom. apply is_fresh.
Qed.

End Claims.


(** * The properties on concrete ledgers *)

Section Concrete.
Import PyDate Demo.
Local Open Scope positive_scope.

Lemma streaming_closed : heap_closed streaming.
Proof. repeat (apply Forall_cons; split; [by eexists |]). apply Forall_nil_2. Qed.

Lemma streaming_cents_closed : heap_closed streaming_cents.
Proof. repeat (apply Forall_cons; split; [by eexists |]). apply Forall_nil_2. Qed.


(** Integer costs add exactly within every bound. *)
Lemma integers_add_exactly (bound : Z) : adds_exactly (num := Z) (λ n, n) bound.
Proof. split; [reflexivity | by intros]. Qed.


Lemma session_runs : run session init = Some (log, final).
Proof. by vm_compute. Qed.

Lemma final_reachable : reachable final.
Proof. eapply run_reachable; [apply reachable_init | apply session_runs]. Qed.

Example last_day_is_date_max : last_day = Date MAXORDINAL.
Proof. reflexivity. Qed.

Example thirty_days_after_jan1 : add_days jan1 30 = Ok (ymd 2025 1 31).
Proof. reflexivity. Qed.

Example session_listing : surviving_adds (object_name final) log = [2; 1].
Proof. by vm_compute. Qed.

End Concrete.

Section Witnesses.
Import PyDate Demo.
Local Open Scope positive_scope.

Lemma auto_cancel_cancels_exactly_the_due_witness :
  heap_closed streaming
  ∧ ∃ σ',
      auto_cancel_subscriptions jan1 (Some jan1) streaming = Some (Ok tt, σ')
      ∧ _subscriptions σ' = _subscriptions streaming
      ∧ heap σ' !! 1 = Some (mkSubscription "Netflix" 4.99%float jan1 false)
      ∧ heap σ' !! 2 = heap streaming !! 2.
Proof.
  split; [exact streaming_closed |].
  destruct (auto_cancel_cancels_exactly_the_due jan1 jan1 streaming streaming_closed)
    as (σ' & Hrun & Hd & Hdue & Hkeep & _).
  exists σ'. split; [exact Hrun |]. split; [exact Hd |]. split.
  - apply (Hdue 1 (mkSubscription "Netflix" 4.99%float jan1 true)).
    + unfold managed. simpl. apply list_elem_of_here.
    + reflexivity.
    + reflexivity.
  - apply (Hkeep 2 (mkSubscription "Hulu" 4.99%float (ymd 2024 12 31) false)).
    + reflexivity.
    + reflexivity.
Defined.

Lemma renew_activates_and_sets_date_witness :
  heap streaming !! 2 = Some (mkSubscription "Hulu" 4.99%float (ymd 2024 12 31) false)
  ∧ valid jan1
  ∧ (toordinal jan1 + 30 ≤ MAXORDINAL)%Z
  ∧ Subscription_renew jan1 2 (Some jan1) streaming
    = Some (Ok tt, store streaming 2 (mkSubscription "Hulu" 4.99%float (ymd 2025 1 31) true))
  ∧ renew_subscription jan1 "Hulu" (Some jan1) streaming
    = Some (Ok tt, store streaming 2 (mkSubscription "Hulu" 4.99%float (ymd 2025 1 31) true)).
Proof.
  assert (Hl : heap streaming !! 2
               = Some (mkSubscription "Hulu" 4.99%float (ymd 2024 12 31) false))
    by reflexivity.
  assert (Hv : valid jan1) by (split; discriminate).
  assert (Hr : (toordinal jan1 + 30 ≤ MAXORDINAL)%Z) by discriminate.
  split; [exact Hl |]. split; [exact Hv |]. split; [exact Hr |].
  destruct (renew_activates_and_sets_date jan1 streaming 2 _ jan1 Hl Hv Hr)
    as [Hdirect Hmanager].
  split; [exact Hdirect |]. apply (Hmanager "Hulu"). reflexivity.
Defined.

Lemma add_rejects_exactly_the_duplicates_witness :
  heap netflix_only !! 1 = Some (mkSubscription "Netflix" 4.99%float jan1 true)
  ∧ add_subscription 1 netflix_only = Some (Raise ValueError, netflix_only)
  ∧ add_subscription 2 netflix_only
    = Some (Ok tt, State (heap netflix_only) [("Netflix", 1); ("Hulu", 2)]).
Proof.
  split; [reflexivity |]. split.
  - apply (proj1 (add_rejects_exactly_the_duplicates netflix_only 1 _ eq_refl)).
    simpl. apply list_elem_of_here.
  - apply (proj1 (proj2 (add_rejects_exactly_the_duplicates netflix_only 2
                           (mkSubscription "Hulu" 4.99%float (ymd 2024 12 31) false)
                           eq_refl))).
    simpl. intros Hin. apply list_elem_of_singleton in Hin. discriminate.
Defined.

Lemma absent_name_raises_KeyError_witness :
  ("Spotify" ∉ PyDict.keys (_subscriptions streaming))
  ∧ remove_subscription "Spotify" streaming = Some (Raise KeyError, streaming)
  ∧ get_subscription "Spotify" streaming = Some (Raise KeyError, streaming)
  ∧ renew_subscription jan1 "Spotify" (Some jan1) streaming
    = Some (Raise KeyError, streaming)
  ∧ cancel_subscription "Spotify" streaming = Some (Raise KeyError, streaming)
  ∧ remove_subscription "Hulu" (State (heap streaming) [("Netflix", 1); ("Gym", 3)])
    = Some (Raise KeyError, State (heap streaming) [("Netflix", 1); ("Gym", 3)]).
Proof.
  assert (Habs : "Spotify" ∉ PyDict.keys (_subscriptions streaming)).
  { simpl. intros Hin. repeat (apply elem_of_cons in Hin as [Hin|Hin]; [discriminate |]).
    by apply elem_of_nil in Hin. }
  split; [exact Habs |].
  destruct (proj1 (absent_name_raises_KeyError jan1 streaming "Spotify" (Some jan1)) Habs)
    as (H1 & H2 & H3 & H4).
  repeat (split; [assumption |]).
  apply (proj2 (absent_name_raises_KeyError jan1 streaming "Hulu" None) (Ok tt)).
  reflexivity.
Defined.

Lemma totals_sum_the_selected_costs_witness :
  heap_closed streaming
  ∧ total_monthly_cost true streaming = Some (Ok 4.99%float, streaming)
  ∧ total_monthly_cost false streaming = Some (Ok 21.98%float, streaming)
  ∧ total_savings streaming = Some (Ok 16.990000000000002%float, streaming).
Proof.
  split; [exact streaming_closed |].
  destruct (totals_sum_the_selected_costs streaming streaming_closed)
    as (Ha & Hall & Hs & _).
  split; [| split].
  - rewrite Ha. by vm_compute.
  - rewrite Hall. by vm_compute.
  - rewrite Hs. by vm_compute.
Defined.

Lemma listing_follows_insertion_order_witness :
  run session init = Some (log, final)
  ∧ list_subscriptions false final = Some (Ok [2; 1], final)
  ∧ list_subscriptions true final = Some (Ok [], final).
Proof.
  split; [exact session_runs |].
  destruct (listing_follows_insertion_order session log final session_runs)
    as (Hall & Hact & _).
  split.
  - rewrite Hall. by vm_compute.
  - rewrite Hact. by vm_compute.
Defined.

Lemma keys_are_the_names_witness :
  reachable final
  ∧ manager_inv final
  ∧ NoDup (name <$> subscriptions_of final).
Proof.
  split; [exact final_reachable |].
  exact (proj1 keys_are_the_names final final_reachable).
Defined.

Lemma cancel_only_clears_active_witness :
  heap streaming !! 1 = Some (mkSubscription "Netflix" 4.99%float jan1 true)
  ∧ Subscription_cancel 1 streaming
    = Some (Ok tt, store streaming 1 (mkSubscription "Netflix" 4.99%float jan1 false))
  ∧ cancel_subscription "Netflix" streaming
    = Some (Ok tt, store streaming 1 (mkSubscription "Netflix" 4.99%float jan1 false)).
Proof.
  split; [reflexivity |].
  destruct (cancel_only_clears_active streaming 1 _ eq_refl)
    as (Hdirect & _ & _ & _ & _ & Hmanager).
  split; [exact Hdirect |]. apply (Hmanager "Netflix"). reflexivity.
Defined.


(** ** Where the specification and the code part *)

(** C2: renewing from the last representable date raises
    [OverflowError] on both paths; the stored renewal date is not
    [d + 30 days]. *)
Lemma renew_on_last_day_raises :
  valid last_day
  ∧ heap streaming !! 2 = Some (mkSubscription "Hulu" 4.99%float (ymd 2024 12 31) false)
  ∧ ∃ σ',
      Subscription_renew jan1 2 (Some last_day) streaming = Some (Raise OverflowError, σ')
      ∧ renew_subscription jan1 "Hulu" (Some last_day) streaming
        = Some (Raise OverflowError, σ')
      ∧ renewal_date <$> heap σ' !! 2 = Some (ymd 2024 12 31)
      ∧ ymd 2024 12 31 ≠ Date (toordinal last_day + 30).
Proof.
  split; [split; discriminate |]. split; [reflexivity |].
  eexists. split; [reflexivity |]. split; [reflexivity |].
  split; [reflexivity | discriminate].
Qed.

(** C9: a subscription constructed with [active=False] is inactive
    right after construction. *)
Lemma constructor_accepts_inactive :
  ∃ l σ',
    Subscription_init (num := float) "Netflix" 15%float jan1 (Some false) init
    = Some (Ok l, σ')
    ∧ active <$> heap σ' !! l = Some false.
Proof. eexists _, _. split; reflexivity. Qed.


(** C10: the two sides need not be close. With the largest finite
    float as the active cost and [2^969] twice among the cancelled
    ones, the total over all entries is that finite float while the
    active total plus the savings is infinite. *)
Lemma float_total_finite_but_parts_overflow :
  total_monthly_cost false at_the_limit
  = Some (Ok 0x1.fffffffffffffp+1023%float, at_the_limit)
  ∧ total_monthly_cost true at_the_limit
    = Some (Ok 0x1.fffffffffffffp+1023%float, at_the_limit)
  ∧ total_savings at_the_limit = Some (Ok 0x1p+970%float, at_the_limit)
  ∧ num_add 0x1.fffffffffffffp+1023%float 0x1p+970%float = infinity.
Proof. repeat split; by vm_compute. Qed.

(** The same ledger under compensated summation: still two results. *)
Lemma compensated_total_differs_too :
  (float_sum_compensated [4.99; 4.99; 12]
   =? (float_sum_compensated [4.99] + float_sum_compensated [4.99; 12]))%float
  = false.
Proof. by vm_compute. Qed.

End Witnesses.

(** * Further properties of the two classes *)

Section MoreDictFacts.
Context {V : Type}.
Implicit Types (d : PyDict.t V) (k : string) (v : V).

Lemma get_del_other k k' d : k' ≠ k → PyDict.get k' (PyDict.del k d) = PyDict.get k' d.
Proof.
  intros Hne. unfold PyDict.del. induction d as [|[k0 v0] d IH]; [done |].
  rewrite filter_cons. simpl. destruct (decide (k0 ≠ k)) as [Hk|Hk]; simpl.
  - by rewrite IH.
  - rewrite IH. apply dec_stable in Hk. subst k0. by rewrite decide_False.
Qed.

Lemma del_absent k d : k ∉ PyDict.keys d → PyDict.del k d = d.
Proof.
  unfold PyDict.del, PyDict.keys. induction d as [|[k0 v0] d IH]; [done |].
  rewrite fmap_cons, not_elem_of_cons. simpl. intros [Hne Hnin].
  rewrite filter_cons_True by (simpl; congruence). by rewrite IH.
Qed.

Lemma del_app_fresh k v d :
  k ∉ PyDict.keys d → PyDict.del k (d ++ [(k, v)]) = d.
Proof.
  intros Hnin. unfold PyDict.del. rewrite filter_app.
  rewrite (filter_singleton_False _ _ []) by (simpl; tauto).
  rewrite app_nil_r. by apply del_absent.
Qed.

Lemma values_del_sublist k d : PyDict.values (PyDict.del k d) `sublist_of` PyDict.values d.
Proof. unfold PyDict.values, PyDict.del. apply fmap_sublist, sublist_filter. Qed.

End MoreDictFacts.

Section Lifecycle.
Context {num : Type} `{!PyNum num}.
Implicit Types (σ : state num) (l : loc) (s : Subscription num) (d clock : date)
  (n : string).

Lemma get_subscription_present σ n l :
  PyDict.get n (_subscriptions σ) = Some l →
  get_subscription n σ = Some (Ok l, σ).
Proof.
  intros Hg. unfold get_subscription, bind, get_dict.
  rewrite (PyDictFacts.get_Some_contains _ _ _ Hg). simpl.
  by apply getitem_present.
Qed.

Lemma get_subscription_absent σ n :
  PyDict.get n (_subscriptions σ) = None →
  get_subscription n σ = Some (Raise KeyError, σ).
Proof.
  intros Hg. unfold get_subscription, bind, get_dict, PyDict.contains.
  by rewrite Hg.
Qed.

(** X1: when [d + 30 days] is after 9999-12-31, [renew(d)] on the
    subscription or through the manager raises [OverflowError] after
    the assignment to [active]: the subscription is left active with
    the renewal date, name and cost it had, and nothing else changes. *)
Theorem renew_out_of_range_reactivates clock σ l s d :
  heap σ !! l = Some s →
  (PyDate.MAXORDINAL < toordinal d + 30)%Z →
  let left := store σ l (mkSubscription (name s) (cost s) (renewal_date s) true) in
  Subscription_renew clock l (Some d) σ = Some (Raise OverflowError, left)
  ∧ ∀ n, PyDict.get n (_subscriptions σ) = Some l →
      renew_subscription clock n (Some d) σ = Some (Raise OverflowError, left).
Proof.
  intros Hl Hhi left.
  pose proof (renew_overflow clock σ l s (Some d) Hl (add_days_overflow _ _ Hhi)) as Hr.
  split; [exact Hr |]. intros n Hg.
  by rewrite (renew_subscription_present _ _ _ _ _ Hg).
Qed.

(** X2: after a successful [add_subscription], [get_subscription] of
    the subscription's name returns that very object, and every other
    name resolves, or fails with [KeyError], as it did before. *)
Theorem add_then_get_round_trip σ l s :
  heap σ !! l = Some s →
  name s ∉ PyDict.keys (_subscriptions σ) →
  ∃ σ', add_subscription l σ = Some (Ok tt, σ')
        ∧ heap σ' = heap σ
        ∧ get_subscription (name s) σ' = Some (Ok l, σ')
        ∧ ∀ k, k ≠ name s →
            fst <$> get_subscription k σ' = fst <$> get_subscription k σ.
Proof.
  intros Hl Hnin. apply PyDictFacts.contains_false in Hnin.
  pose proof (PyDictFacts.contains_false_get _ _ Hnin) as Hg.
  eexists. split; [by apply add_fresh |]. split; [done |]. split.
  - apply get_subscription_present. simpl. by apply PyDictFacts.get_app_fresh.
  - intros k Hk.
    pose proof (PyDictFacts.get_app_other k (name s) l (_subscriptions σ)) as Hother.
    destruct (PyDict.get k (_subscriptions σ)) as [l'|] eqn:E.
    + rewrite (get_subscription_present σ _ _ E).
      erewrite get_subscription_present; [done |]. simpl. rewrite Hother; [done | congruence].
    + rewrite (get_subscription_absent σ _ E).
      erewrite get_subscription_absent; [done |]. simpl. rewrite Hother; [done | congruence].
Qed.

(** X3: [remove_subscription] of a name that is a key returns
    normally, leaves every object as it was (a handle to the removed
    subscription still sees the same record), makes the name fail with
    [KeyError], keeps every other name resolving as before, and keeps
    the remaining subscriptions in their order. *)
Theorem remove_deletes_only_the_entry σ n l :
  PyDict.get n (_subscriptions σ) = Some l →
  ∃ σ', remove_subscription n σ = Some (Ok tt, σ')
        ∧ heap σ' = heap σ
        ∧ get_subscription n σ' = Some (Raise KeyError, σ')
        ∧ (∀ k, k ≠ n →
             PyDict.get k (_subscriptions σ') = PyDict.get k (_subscriptions σ))
        ∧ PyDict.values (_subscriptions σ')
            `sublist_of` PyDict.values (_subscriptions σ).
Proof.
  intros Hg. eexists. split.
  { apply remove_present. by eapply PyDictFacts.get_Some_contains. }
  split; [done |]. split; [| split].
  - apply get_subscription_absent. simpl.
    apply PyDictFacts.contains_false_get, PyDictFacts.contains_del.
  - intros k Hk. simpl. by apply get_del_other.
  - simpl. apply values_del_sublist.
Qed.

(** X4: adding a subscription under a fresh name and removing that
    name again gives back exactly the state before the two calls. *)
Theorem add_then_remove_restores σ l s :
  heap σ !! l = Some s →
  name s ∉ PyDict.keys (_subscriptions σ) →
  ∃ σ1, add_subscription l σ = Some (Ok tt, σ1)
        ∧ remove_subscription (name s) σ1 = Some (Ok tt, σ).
Proof.
  intros Hl Hnin. pose proof Hnin as Hc. apply PyDictFacts.contains_false in Hc.
  eexists. split; [by apply add_fresh |].
  rewrite remove_present.
  - simpl. rewrite del_app_fresh by done. by rewrite state_eta.
  - simpl. eapply PyDictFacts.get_Some_contains.
    apply PyDictFacts.get_app_fresh. by apply PyDictFacts.contains_false_get.
Qed.

(** X5: removing a subscription and adding the same object again puts
    it at the end of the listing; the others keep their order. *)
Theorem remove_then_add_moves_last σ n l s :
  PyDict.get n (_subscriptions σ) = Some l →
  heap σ !! l = Some s →
  name s = n →
  ∃ σ1 σ2, remove_subscription n σ = Some (Ok tt, σ1)
           ∧ add_subscription l σ1 = Some (Ok tt, σ2)
           ∧ heap σ2 = heap σ
           ∧ PyDict.values (_subscriptions σ2)
             = PyDict.values (PyDict.del n (_subscriptions σ)) ++ [l].
Proof.
  intros Hg Hl Hn. eexists _, _. split.
  { apply remove_present. by eapply PyDictFacts.get_Some_contains. }
  split; [| split].
  - apply (add_fresh _ l s); [done |]. simpl. rewrite Hn.
    apply PyDictFacts.contains_del.
  - done.
  - simpl. unfold PyDict.values. by rewrite fmap_app.
Qed.

End Lifecycle.

Section AutoCancel.
Context {num : Type} `{!PyNum num}.
Implicit Types (σ : state num) (l : loc) (s : Subscription num) (d clock : date)
  (h : gmap loc (Subscription num)).

Lemma auto_cancel_run clock (today : option date) σ :
  heap_closed σ →
  auto_cancel_subscriptions clock today σ
  = Some (Ok tt,
          State (foldl (λ h' l', alter (cancel_due (default clock today)) l' h')
                       (heap σ) (PyDict.values (_subscriptions σ)))
                (_subscriptions σ)).
Proof.
  intros Hclosed. unfold auto_cancel_subscriptions, bind, get_dict. simpl.
  by apply auto_cancel_loop.
Qed.

Lemma auto_cancel_lookup d h (ls : list loc) l :
  foldl (λ h' l', alter (cancel_due d) l' h') h ls !! l
  = if decide (l ∈ ls) then cancel_due d <$> h !! l else h !! l.
Proof. apply foldl_alter_lookup, cancel_due_idem. Qed.

Lemma auto_cancel_closed d σ :
  heap_closed σ →
  heap_closed (State (foldl (λ h' l', alter (cancel_due d) l' h')
                            (heap σ) (PyDict.values (_subscriptions σ)))
                     (_subscriptions σ)).
Proof.
  unfold heap_closed. simpl. intros Hclosed. apply Forall_forall. intros l Hin.
  rewrite auto_cancel_lookup, decide_True by done.
  eapply Forall_forall in Hclosed; [| exact Hin].
  destruct Hclosed as [s ->]. by eexists.
Qed.

Lemma cancel_due_later d1 d2 s :
  PyDate.le d1 d2 = true →
  cancel_due d2 (cancel_due d1 s) = cancel_due d2 s
  ∧ cancel_due d1 (cancel_due d2 s) = cancel_due d2 s.
Proof.
  unfold cancel_due, due, PyDate.le. intros Hle. apply Z.leb_le in Hle.
  destruct (active s) eqn:Ea; simpl; [| by rewrite Ea].
  destruct (toordinal (renewal_date s) <=? toordinal d1)%Z eqn:E1;
    destruct (toordinal (renewal_date s) <=? toordinal d2)%Z eqn:E2;
    simpl; rewrite ?Ea; simpl; rewrite ?E1, ?E2; try done.
  apply Z.leb_le in E1. apply Z.leb_gt in E2. lia.
Qed.

(** X6: auto-cancelling for a date and then for a later date, or the
    other way round, ends in the state that auto-cancelling for the
    later date alone gives; in particular repeating the call for the
    same date changes nothing. *)
Theorem auto_cancel_later_date_absorbs clock σ d1 d2 :
  heap_closed σ →
  PyDate.le d1 d2 = true →
  ∃ σ1 σ2,
    auto_cancel_subscriptions clock (Some d1) σ = Some (Ok tt, σ1)
    ∧ auto_cancel_subscriptions clock (Some d2) σ = Some (Ok tt, σ2)
    ∧ auto_cancel_subscriptions clock (Some d2) σ1 = Some (Ok tt, σ2)
    ∧ auto_cancel_subscriptions clock (Some d1) σ2 = Some (Ok tt, σ2)
    ∧ auto_cancel_subscriptions clock (Some d2) σ2 = Some (Ok tt, σ2).
Proof.
  intros Hclosed Hle. eexists _, _.
  split; [by apply auto_cancel_run |]. split; [by apply auto_cancel_run |].
  assert (Hre : PyDate.le d2 d2 = true) by apply Z.leb_refl.
  split; [| split];
    (rewrite auto_cancel_run by by apply auto_cancel_closed);
    simpl; do 2 f_equal; f_equal; apply map_eq; intros l;
    rewrite !auto_cancel_lookup;
    (destruct (decide (l ∈ _)); [| done]);
    (destruct (heap σ !! l) as [s|]; [| done]); simpl; f_equal.
  - apply (cancel_due_later d1 d2 s Hle).
  - apply (cancel_due_later d1 d2 s Hle).
  - apply (cancel_due_later d2 d2 s Hre).
Qed.

(** X7: after [auto_cancel_subscriptions(today)] no managed
    subscription is both active and due on [today], and no object is
    active that was not active before. *)
Theorem auto_cancel_leaves_no_due clock today σ :
  heap_closed σ →
  ∃ σ',
    auto_cancel_subscriptions clock (Some today) σ = Some (Ok tt, σ')
    ∧ (∀ l s', managed σ' l → heap σ' !! l = Some s' → due today s' = false)
    ∧ (∀ l, is_active σ' l = true → is_active σ l = true).
Proof.
  intros Hclosed. eexists. split; [by apply auto_cancel_run |]. split.
  - intros l s' Hm. simpl. unfold managed in Hm. simpl in Hm.
    rewrite auto_cancel_lookup, decide_True by done.
    destruct (heap σ !! l) as [s|]; [| done]. simpl. intros [= <-].
    unfold cancel_due. destruct (due today s) eqn:E; [done | exact E].
  - intros l. unfold is_active. simpl. rewrite auto_cancel_lookup.
    destruct (decide _); [| done].
    destruct (heap σ !! l) as [s|]; [| done]. simpl.
    unfold cancel_due. by destruct (due today s).
Qed.

End AutoCancel.

(** ** What no call changes *)

Section Keeps.
Context {num : Type} `{!PyNum num}.
Variable R : state num → state num → Prop.
Hypothesis R_refl : ∀ σ, R σ σ.
Hypothesis R_trans : ∀ σ1 σ2 σ3, R σ1 σ2 → R σ2 σ3 → R σ1 σ3.
Local Open Scope py_scope.

Lemma keeps_ret {A} (a : A) : keeps R (ret a).
Proof. intros σ r σ' [= <- <-]. apply R_refl. Qed.

Lemma keeps_raise {A} e : keeps R (raise (A := A) e).
Proof. intros σ r σ' [= <- <-]. apply R_refl. Qed.

Lemma keeps_lift {A} (x : result A) : keeps R (lift x).
Proof. intros σ r σ' [= <- <-]. apply R_refl. Qed.

Lemma keeps_get_dict : keeps R get_dict.
Proof. intros σ r σ' [= <- <-]. apply R_refl. Qed.

Lemma keeps_getattr {A} (f : Subscription num → A) l : keeps R (getattr f l).
Proof.
  intros σ r σ' Hrun. unfold getattr in Hrun. destruct (heap σ !! l); [| done].
  injection Hrun as <- <-. apply R_refl.
Qed.

Lemma keeps_bind {A B} (m : Py num A) (k : A → Py num B) :
  keeps R m → (∀ a, keeps R (k a)) → keeps R (bind m k).
Proof.
  intros Hm Hk σ r σ' Hrun. unfold bind in Hrun.
  destruct (m σ) as [[[a|e] σ1]|] eqn:E; [| |done].
  - eapply R_trans; [by eapply Hm | by eapply Hk].
  - injection Hrun as <- <-. by eapply Hm.
Qed.

Lemma keeps_for_each {A} (body : A → Py num unit) xs :
  (∀ x, keeps R (body x)) → keeps R (for_each body xs).
Proof.
  intros Hb. induction xs as [|x xs IH]; simpl; [apply keeps_ret |].
  apply keeps_bind; [apply Hb | done].
Qed.

Lemma keeps_comprehension {A B} (cond : A → Py num bool) (item : A → Py num B) xs :
  (∀ x, keeps R (cond x)) → (∀ x, keeps R (item x)) →
  keeps R (comprehension cond item xs).
Proof.
  intros Hc Hi. induction xs as [|x xs IH]; simpl; [apply keeps_ret |].
  apply keeps_bind; [apply Hc |]. intros [|]; [| done].
  apply keeps_bind; [apply Hi |]. intros y.
  apply keeps_bind; [done |]. intros ys. apply keeps_ret.
Qed.

End Keeps.

Section Identity.
Context {num : Type} `{!PyNum num}.
Implicit Types (σ : state num) (l : loc) (s : Subscription num).
Local Open Scope py_scope.

Lemma identity_stable_refl σ : identity_stable σ σ.
Proof. intros l s Hl. eauto. Qed.

Lemma identity_stable_trans σ1 σ2 σ3 :
  identity_stable σ1 σ2 → identity_stable σ2 σ3 → identity_stable σ1 σ3.
Proof.
  intros H12 H23 l s Hl. destruct (H12 _ _ Hl) as (s2 & Hl2 & Hn2 & Hc2).
  destruct (H23 _ _ Hl2) as (s3 & Hl3 & Hn3 & Hc3). exists s3.
  split; [done |]. split; congruence.
Qed.

Lemma keeps_setattr (upd : Subscription num → Subscription num) l :
  (∀ s, name (upd s) = name s ∧ cost (upd s) = cost s) →
  keeps identity_stable (setattr upd l).
Proof.
  intros Hupd σ r σ' Hrun. unfold setattr in Hrun.
  destruct (heap σ !! l) as [s|] eqn:Hl; [| done].
  injection Hrun as <- <-. intros l0 s0 Hl0. simpl. rewrite lookup_insert.
  destruct (decide (l = l0)) as [->|]; [| eauto].
  exists (upd s). split; [done |]. destruct (Hupd s). split; congruence.
Qed.

Lemma keeps_put_dict (d : PyDict.t loc) : keeps (num := num) identity_stable (put_dict d).
Proof. intros σ r σ' [= <- <-]. intros l s Hl. simpl. eauto. Qed.

Local Ltac keeps_side :=
  try exact identity_stable_refl; try exact identity_stable_trans; intros.

Local Ltac keeps_step :=
  first
    [ apply keeps_ret; keeps_side
    | apply keeps_raise; keeps_side
    | apply keeps_lift; keeps_side
    | apply keeps_get_dict; keeps_side
    | apply keeps_getattr; keeps_side
    | apply keeps_put_dict
    | apply keeps_setattr; by intros []
    | apply keeps_bind; keeps_side
    | apply keeps_for_each; keeps_side
    | apply keeps_comprehension; keeps_side
    | match goal with |- keeps _ (if ?b then _ else _) => destruct b end
    | match goal with |- keeps _ (match ?o with Some _ => _ | None => _ end) =>
        destruct o end ].

Lemma keeps_init n (c : num) d a : keeps identity_stable (Subscription_init n c d a).
Proof.
  intros σ res σ' [= <- <-]. intros l s Hl. simpl. rewrite lookup_insert_ne; [eauto |].
  intros <-. pose proof (is_fresh (dom (heap σ))) as Hf.
  apply not_elem_of_dom in Hf. congruence.
Qed.

Lemma keeps_exec clock (c : @call num) : keeps identity_stable (exec clock c).
Proof.
  destruct c; simpl;
    unfold Subscription_cancel, Subscription_renew, add_subscription,
      remove_subscription, auto_cancel_subscriptions, renew_subscription,
      cancel_subscription, get_subscription, list_subscriptions,
      total_monthly_cost, total_savings, list_subscriptions, getitem,
      Subscription_cancel, Subscription_renew;
    try (apply keeps_bind; keeps_side; [apply keeps_init | keeps_step]);
    repeat keeps_step.
Qed.

(** X8: no call, however it ends, deletes an object or changes the
    [name] or the [cost] of one: every subscription that existed before
    the call exists after it with the same name and cost. *)
Theorem calls_keep_name_and_cost clock (c : @call num) σ r σ' :
  exec clock c σ = Some (r, σ') →
  ∀ l s, heap σ !! l = Some s →
    ∃ s', heap σ' !! l = Some s' ∧ name s' = name s ∧ cost s' = cost s.
Proof. apply keeps_exec. Qed.

End Identity.

Section Outcomes.
Context {num : Type} `{!PyNum num}.
Implicit Types (σ : state num) (l : loc) (s : Subscription num) (d clock : date)
  (n : string).

Lemma identity_stable_costs σ σ' (ls : list loc) :
  identity_stable σ σ' →
  Forall (λ l, is_Some (heap σ !! l)) ls →
  Forall (λ l, is_Some (heap σ' !! l)) ls
  ∧ cost <$> omap (λ l, heap σ' !! l) ls = cost <$> omap (λ l, heap σ !! l) ls.
Proof.
  intros Hst. induction ls as [|l ls IH]; intros Hlive; [done |].
  apply Forall_cons in Hlive as [[s Hl] Hlive]. destruct (IH Hlive) as [Hlive' Hc].
  destruct (Hst _ _ Hl) as (s' & Hl' & _ & Hcost). split.
  - apply Forall_cons. split; [by eexists | done].
  - cbn [omap list_omap]. rewrite Hl, Hl'. rewrite !fmap_cons. by f_equal.
Qed.

(** X9: a call other than [add_subscription] and
    [remove_subscription] — a constructor, cancel, renew, auto-cancel
    or query, ending normally or with an exception — leaves the value of
    [total_monthly_cost(False)] as it was. *)
Theorem only_add_and_remove_change_the_total clock (c : @call num) σ r σ' :
  heap_closed σ →
  (∀ l, c ≠ CAdd l) →
  (∀ n, c ≠ CRemove n) →
  exec clock c σ = Some (r, σ') →
  ∃ x, total_monthly_cost false σ = Some (Ok x, σ)
       ∧ total_monthly_cost false σ' = Some (Ok x, σ').
Proof.
  intros Hclosed Hadd Hrem Hrun.
  assert (Hd : _subscriptions σ' = _subscriptions σ).
  { destruct (exec_effect _ _ _ _ _ Hrun) as [_ Hd].
    destruct c; try (by destruct r); [by destruct (Hadd subscription) | by destruct (Hrem name0)]. }
  pose proof (keeps_exec clock c _ _ _ Hrun) as Hst.
  destruct (identity_stable_costs _ _ _ Hst Hclosed) as [Hlive' Hc].
  assert (Hclosed' : heap_closed σ') by (unfold heap_closed; by rewrite Hd).
  exists (py_sum (cost <$> subscriptions_of σ)).
  split; [by apply total_monthly_cost_all |].
  rewrite (total_monthly_cost_all _ Hclosed'). unfold subscriptions_of.
  by rewrite Hd, Hc.
Qed.

Lemma add_days_cases d (k : Z) :
  (∃ d', PyDate.add_days d k = Ok d') ∨ PyDate.add_days d k = Raise OverflowError.
Proof. unfold PyDate.add_days. simpl. destruct (_ && _); eauto. Qed.

Lemma renew_outcome clock σ l s (today : option date) :
  heap σ !! l = Some s →
  ∃ r σ', Subscription_renew clock l today σ = Some (r, σ')
          ∧ (r = Ok tt ∨ r = Raise OverflowError).
Proof.
  intros Hl. destruct (add_days_cases (default clock today) 30) as [[d' Hd]|Hd].
  - eexists _, _. split; [by eapply renew_live | by left].
  - eexists _, _. split; [by eapply renew_overflow | by right].
Qed.

(** X10: in a state where the manager's references point to objects,
    a call that passes live handles always ends; [add_subscription] can
    only raise [ValueError], [remove_subscription], [get_subscription]
    and [cancel_subscription] only [KeyError], [renew_subscription]
    only [KeyError] or [OverflowError], [Subscription.renew] only
    [OverflowError], and nothing else raises; after a [ValueError] or a
    [KeyError] the state is the one before the call. *)
Theorem calls_end_with_the_documented_errors clock (c : @call num) σ :
  heap_closed σ →
  live_call σ c →
  ∃ r σ', exec clock c σ = Some (r, σ')
          ∧ match r with
            | Ok _ => True
            | Raise e => may_raise c e ∧ (e ≠ OverflowError → σ' = σ)
            end.
Proof.
  intros Hclosed Hlive. destruct c; simpl in Hlive; simpl; unfold bind at 1.
  - eexists _, _. split; [reflexivity | done].
  - destruct Hlive as [s Hl]. rewrite (cancel_live _ _ _ Hl).
    eexists _, _. split; [reflexivity | done].
  - destruct Hlive as [s Hl].
    destruct (renew_outcome clock σ self s today Hl) as (r & σ' & -> & [->| ->]);
      eexists _, _; (split; [reflexivity |]); [done | by split].
  - destruct Hlive as [s Hl].
    destruct (PyDict.contains (name s) (_subscriptions σ)) eqn:Hc.
    + rewrite (add_duplicate _ _ _ Hl Hc). eexists _, _. split; [reflexivity | by split].
    + rewrite (add_fresh _ _ _ Hl Hc). eexists _, _. split; [reflexivity | done].
  - destruct (PyDict.contains name0 (_subscriptions σ)) eqn:Hc.
    + rewrite (remove_present _ _ Hc). eexists _, _. split; [reflexivity | done].
    + rewrite (remove_absent _ _ Hc). eexists _, _. split; [reflexivity | by split].
  - rewrite (auto_cancel_run _ _ _ Hclosed). eexists _, _. split; [reflexivity | done].
  - destruct (PyDict.get name0 (_subscriptions σ)) as [l|] eqn:Hg.
    + rewrite (renew_subscription_present _ _ _ _ _ Hg).
      pose proof (PyDictFacts.get_Some_value _ _ _ Hg) as Hin.
      eapply Forall_forall in Hclosed; [| exact Hin]. destruct Hclosed as [s Hl].
      destruct (renew_outcome clock σ l s today Hl) as (r & σ' & -> & [->| ->]);
        eexists _, _; (split; [reflexivity |]); [done |].
      split; [by right | done].
    + unfold renew_subscription, bind, get_dict, PyDict.contains. rewrite Hg. simpl.
      eexists _, _. split; [reflexivity |]. split; [by left | done].
  - destruct (PyDict.get name0 (_subscriptions σ)) as [l|] eqn:Hg.
    + rewrite (cancel_subscription_present _ _ _ Hg).
      pose proof (PyDictFacts.get_Some_value _ _ _ Hg) as Hin.
      eapply Forall_forall in Hclosed; [| exact Hin]. destruct Hclosed as [s Hl].
      rewrite (cancel_live _ _ _ Hl). eexists _, _. split; [reflexivity | done].
    + unfold cancel_subscription, bind, get_dict, PyDict.contains. rewrite Hg. simpl.
      eexists _, _. split; [reflexivity | by split].
  - destruct (PyDict.get name0 (_subscriptions σ)) as [l|] eqn:Hg.
    + rewrite (get_subscription_present _ _ _ Hg).
      eexists _, _. split; [reflexivity | done].
    + rewrite (get_subscription_absent _ _ Hg).
      eexists _, _. split; [reflexivity | by split].
  - destruct active_only.
    + rewrite (list_active _ Hclosed). eexists _, _. split; [reflexivity | done].
    + rewrite list_all. eexists _, _. split; [reflexivity | done].
  - destruct active_only.
    + rewrite (total_monthly_cost_active _ Hclosed).
      eexists _, _. split; [reflexivity | done].
    + rewrite (total_monthly_cost_all _ Hclosed).
      eexists _, _. split; [reflexivity | done].
  - rewrite (total_savings_inactive _ Hclosed).
    eexists _, _. split; [reflexivity | done].
Qed.

End Outcomes.

Section Compositions.
Context {num : Type} `{!PyNum num}.
Implicit Types (σ : state num) (l : loc) (s : Subscription num) (d clock : date)
  (n : string).

(** X11: the last renewal wins: [renew(d)] after an earlier
    [renew(d0)] or after [cancel()] ends in the state that [renew(d)]
    alone gives, and a [cancel()] after it keeps the new renewal date. *)
Theorem last_renew_wins clock σ l s d d0 :
  heap σ !! l = Some s →
  PyDate.valid d → (toordinal d + 30 ≤ PyDate.MAXORDINAL)%Z →
  PyDate.valid d0 → (toordinal d0 + 30 ≤ PyDate.MAXORDINAL)%Z →
  let renewed := mkSubscription (name s) (cost s) (Date (toordinal d + 30)) true in
  Subscription_renew clock l (Some d) σ = Some (Ok tt, store σ l renewed)
  ∧ (∃ σ1, Subscription_renew clock l (Some d0) σ = Some (Ok tt, σ1)
           ∧ Subscription_renew clock l (Some d) σ1 = Some (Ok tt, store σ l renewed))
  ∧ (∃ σ1, Subscription_cancel l σ = Some (Ok tt, σ1)
           ∧ Subscription_renew clock l (Some d) σ1 = Some (Ok tt, store σ l renewed))
  ∧ Subscription_cancel l (store σ l renewed)
    = Some (Ok tt, store σ l (mkSubscription (name s) (cost s)
                                (Date (toordinal d + 30)) false)).
Proof.
  intros Hl [Hlo _] Hhi [Hlo0 _] Hhi0 renewed. unfold PyDate.MINORDINAL in *.
  assert (Hadd : PyDate.add_days d 30 = Ok (Date (toordinal d + 30)))
    by (apply add_days_in_range; lia).
  assert (Hadd0 : PyDate.add_days d0 30 = Ok (Date (toordinal d0 + 30)))
    by (apply add_days_in_range; lia).
  split; [by apply (renew_live clock σ l s (Some d)) |]. split; [| split].
  - eexists. split; [by apply (renew_live clock σ l s (Some d0)) |].
    erewrite (renew_live clock _ l _ (Some d)); [| apply lookup_insert_eq | exact Hadd].
    by rewrite store_store.
  - eexists. split; [by apply cancel_live |].
    erewrite (renew_live clock _ l _ (Some d)); [| apply lookup_insert_eq | exact Hadd].
    by rewrite store_store.
  - erewrite cancel_live by apply lookup_insert_eq. by rewrite store_store.
Qed.

Lemma is_active_store σ l s l' :
  is_active (store σ l s) l' = if decide (l = l') then active s else is_active σ l'.
Proof.
  unfold is_active, store. simpl. rewrite lookup_insert. by destruct (decide (l = l')).
Qed.

Lemma store_closed σ l s s' :
  heap σ !! l = Some s → heap_closed σ → heap_closed (store σ l s').
Proof.
  intros Hl Hclosed. unfold heap_closed, store. simpl.
  eapply Forall_impl; [exact Hclosed |]. intros l' [s0 Hl']. simpl.
  rewrite lookup_insert. destruct (decide (l = l')); eauto.
Qed.

(** X12: [cancel_subscription] of an existing name leaves the full
    listing as it was and drops exactly that subscription from the
    active listing, the others keeping their order. *)
Theorem cancel_drops_from_the_active_listing σ n l :
  heap_closed σ →
  PyDict.get n (_subscriptions σ) = Some l →
  ∃ σ' before,
    cancel_subscription n σ = Some (Ok tt, σ')
    ∧ list_subscriptions false σ' = Some (Ok (PyDict.values (_subscriptions σ)), σ')
    ∧ list_subscriptions true σ = Some (Ok before, σ)
    ∧ list_subscriptions true σ' = Some (Ok (filter (λ l', l' ≠ l) before), σ').
Proof.
  intros Hclosed Hg.
  pose proof (PyDictFacts.get_Some_value _ _ _ Hg) as Hin.
  pose proof Hclosed as Hlive. eapply Forall_forall in Hlive; [| exact Hin].
  destruct Hlive as [s Hl]. eexists _, _. split.
  { rewrite (cancel_subscription_present _ _ _ Hg). by apply cancel_live. }
  split; [done |]. split; [by apply list_active |].
  rewrite list_active by by eapply store_closed. simpl.
  rewrite list_filter_filter. do 3 f_equal. apply list_filter_iff. intros l'.
  rewrite is_active_store. simpl. destruct (decide (l = l')) as [->|Hne].
  - simpl. split; [done | by intros [? _]].
  - split; [by intros ?; split; [congruence |] | by intros [_ ?]].
Qed.

(** X13: [renew_subscription] of an existing name with a date in range
    leaves the full listing as it was and makes the active listing the
    subscriptions that were active before together with the renewed
    one, in dictionary order. *)
Theorem renew_enters_the_active_listing clock σ n l d :
  heap_closed σ →
  PyDict.get n (_subscriptions σ) = Some l →
  PyDate.valid d → (toordinal d + 30 ≤ PyDate.MAXORDINAL)%Z →
  ∃ σ',
    renew_subscription clock n (Some d) σ = Some (Ok tt, σ')
    ∧ list_subscriptions false σ' = Some (Ok (PyDict.values (_subscriptions σ)), σ')
    ∧ list_subscriptions true σ'
      = Some (Ok (filter (λ l', l' = l ∨ is_active σ l')
                         (PyDict.values (_subscriptions σ))), σ').
Proof.
  intros Hclosed Hg [Hlo _] Hhi. unfold PyDate.MINORDINAL in *.
  pose proof (PyDictFacts.get_Some_value _ _ _ Hg) as Hin.
  pose proof Hclosed as Hlive. eapply Forall_forall in Hlive; [| exact Hin].
  destruct Hlive as [s Hl]. eexists. split.
  { rewrite (renew_subscription_present _ _ _ _ _ Hg).
    eapply (renew_live clock σ l s (Some d)); [exact Hl |].
    apply add_days_in_range. simpl. lia. }
  split; [done |].
  rewrite list_active by by eapply store_closed. simpl.
  do 3 f_equal. apply list_filter_iff. intros l'.
  rewrite is_active_store. simpl. destruct (decide (l = l')) as [->|Hne].
  - simpl. split; [by left | done].
  - split; [by right | by intros [?|?]; [congruence |]].
Qed.

End Compositions.

(** ** Cancelling under exact arithmetic *)

Section ExactLedger.
Context {num : Type} `{!PyNum num}.
Hypothesis add_assoc : ∀ x y z : num, num_add x (num_add y z) = num_add (num_add x y) z.
Hypothesis add_comm : ∀ x y : num, num_add x y = num_add y x.
Hypothesis add_zero_l : ∀ x : num, num_add num_zero x = x.
Implicit Types (σ : state num) (l : loc) (s : Subscription num)
  (h : gmap loc (Subscription num)).

Lemma values_NoDup σ : manager_inv σ → NoDup (PyDict.values (_subscriptions σ)).
Proof.
  intros [Hwf Hkey]. apply (NoDup_fmap_1 (object_name σ)).
  assert (E : object_name σ <$> PyDict.values (_subscriptions σ)
              = Some <$> PyDict.keys (_subscriptions σ)).
  { unfold key_is_name, PyDict.values, PyDict.keys, object_name in *.
    induction (_subscriptions σ) as [|[k l] d IH]; [done |].
    apply Forall_cons in Hkey as [Hk Hkey]. apply NoDup_cons in Hwf as [_ Hwf].
    simpl in *. rewrite Hk. f_equal. by apply IH. }
  rewrite E. by apply (NoDup_fmap_2 Some).
Qed.

Lemma omap_insert_notin h l s' (ls : list loc) :
  l ∉ ls → omap (λ x, <[l := s']> h !! x) ls = omap (λ x, h !! x) ls.
Proof.
  induction ls as [|x ls IH]; [done |]. rewrite not_elem_of_cons. intros [Hne Hnin].
  cbn [omap list_omap]. rewrite lookup_insert_ne by done. by rewrite IH.
Qed.

Lemma add_swap (x y z : num) : num_add x (num_add y z) = num_add y (num_add x z).
Proof. by rewrite !add_assoc, (add_comm x y). Qed.

(** Deactivating one object of a duplicate-free list of references
    moves its cost from the active sum to the inactive sum. *)
Lemma deactivate_sums h l s (ls : list loc) :
  NoDup ls → l ∈ ls → h !! l = Some s → active s = true →
  Forall (λ x, is_Some (h !! x)) ls →
  let h' := <[l := with_active false s]> h in
  py_sum (cost <$> filter (λ s0, active s0) (omap (λ x, h !! x) ls))
  = num_add (cost s)
      (py_sum (cost <$> filter (λ s0, active s0) (omap (λ x, h' !! x) ls)))
  ∧ py_sum (cost <$> filter (λ s0, inactive s0) (omap (λ x, h' !! x) ls))
    = num_add (cost s)
        (py_sum (cost <$> filter (λ s0, inactive s0) (omap (λ x, h !! x) ls))).
Proof.
  intros Hnd Hin Hl Ha Hlive h'. induction ls as [|x ls IH].
  { by apply elem_of_nil in Hin. }
  apply NoDup_cons in Hnd as [Hx Hnd]. apply Forall_cons in Hlive as [[sx Hsx] Hlive].
  assert (Hon : ∀ s0, active s0 = true → Is_true (active s0) ∧ ¬ Is_true (inactive s0)).
  { intros s0 E. unfold inactive. rewrite E. simpl. tauto. }
  assert (Hoff : ∀ s0, active s0 = false → ¬ Is_true (active s0) ∧ Is_true (inactive s0)).
  { intros s0 E. unfold inactive. rewrite E. simpl. tauto. }
  cbn [omap list_omap]. destruct (decide (x = l)) as [->|Hne].
  - assert (Hl' : h' !! l = Some (with_active false s)) by apply lookup_insert_eq.
    rewrite Hl, Hl'. unfold h'. rewrite (omap_insert_notin _ _ _ _ Hx).
    destruct (Hon s Ha) as [H1 H2].
    destruct (Hoff (with_active false s) eq_refl) as [H3 H4].
    rewrite (filter_cons_True (λ s0 : Subscription num, Is_true (active s0)) _ _ H1), (filter_cons_False (λ s0 : Subscription num, Is_true (inactive s0)) _ _ H2).
    rewrite (filter_cons_False (λ s0 : Subscription num, Is_true (active s0)) _ _ H3), (filter_cons_True (λ s0 : Subscription num, Is_true (inactive s0)) _ _ H4).
    rewrite !fmap_cons. simpl.
    by rewrite !(py_sum_cons add_assoc add_comm add_zero_l).
  - apply elem_of_cons in Hin as [->|Hin]; [done |].
    destruct (IH Hnd Hin Hlive) as [IHa IHi].
    assert (Hsx' : h' !! x = Some sx) by (unfold h'; by rewrite lookup_insert_ne).
    rewrite Hsx, Hsx'. destruct (active sx) eqn:Eax.
    + destruct (Hon sx Eax) as [H1 H2].
      rewrite !(filter_cons_True (λ s0 : Subscription num, Is_true (active s0)) _ _ H1), !(filter_cons_False (λ s0 : Subscription num, Is_true (inactive s0)) _ _ H2).
      rewrite !fmap_cons, !(py_sum_cons add_assoc add_comm add_zero_l).
      split; [by rewrite IHa, add_swap | done].
    + destruct (Hoff sx Eax) as [H1 H2].
      rewrite !(filter_cons_False (λ s0 : Subscription num, Is_true (active s0)) _ _ H1), !(filter_cons_True (λ s0 : Subscription num, Is_true (inactive s0)) _ _ H2).
      rewrite !fmap_cons, !(py_sum_cons add_assoc add_comm add_zero_l).
      split; [done | by rewrite IHi, add_swap].
Qed.

(** X14: when costs add exactly, cancelling an active managed
    subscription of cost [c] by name takes [c] off
    [total_monthly_cost(True)] and puts [c] on [total_savings()]. *)
Theorem cancel_moves_cost_to_savings σ n l s :
  manager_inv σ →
  PyDict.get n (_subscriptions σ) = Some l →
  heap σ !! l = Some s →
  active s = true →
  ∃ σ' paid saved paid' saved',
    cancel_subscription n σ = Some (Ok tt, σ')
    ∧ total_monthly_cost true σ = Some (Ok paid, σ)
    ∧ total_savings σ = Some (Ok saved, σ)
    ∧ total_monthly_cost true σ' = Some (Ok paid', σ')
    ∧ total_savings σ' = Some (Ok saved', σ')
    ∧ paid = num_add (cost s) paid'
    ∧ saved' = num_add (cost s) saved.
Proof.
  intros Hinv Hg Hl Ha.
  pose proof (manager_inv_closed _ (proj2 Hinv)) as Hclosed.
  pose proof (store_closed σ l s (with_active false s) Hl Hclosed) as Hclosed'.
  destruct (deactivate_sums (heap σ) l s (PyDict.values (_subscriptions σ))
              (values_NoDup _ Hinv) (PyDictFacts.get_Some_value _ _ _ Hg) Hl Ha Hclosed)
    as [Hpaid Hsaved].
  eexists _, _, _, _, _. split.
  { rewrite (cancel_subscription_present _ _ _ Hg). by apply cancel_live. }
  split; [by apply total_monthly_cost_active |].
  split; [by apply total_savings_inactive |].
  split; [by apply total_monthly_cost_active |].
  split; [by apply total_savings_inactive |].
  split; [exact Hpaid | exact Hsaved].
Qed.

End ExactLedger.

Section MoreWitnesses.
Import PyDate Demo.
Local Open Scope positive_scope.

Lemma streaming_cents_inv : manager_inv streaming_cents.
Proof.
  split.
  - apply (bool_decide_unpack _). by vm_compute.
  - repeat (apply Forall_cons; split; [reflexivity |]). apply Forall_nil_2.
Qed.

Lemma renew_out_of_range_reactivates_witness :
  heap streaming !! 2 = Some (mkSubscription "Hulu" 4.99%float (ymd 2024 12 31) false)
  ∧ (MAXORDINAL < toordinal last_day + 30)%Z
  ∧ Subscription_renew jan1 2 (Some last_day) streaming
    = Some (Raise OverflowError,
            store streaming 2 (mkSubscription "Hulu" 4.99%float (ymd 2024 12 31) true))
  ∧ renew_subscription jan1 "Hulu" (Some last_day) streaming
    = Some (Raise OverflowError,
            store streaming 2 (mkSubscription "Hulu" 4.99%float (ymd 2024 12 31) true)).
Proof.
  assert (Hl : heap streaming !! 2
               = Some (mkSubscription "Hulu" 4.99%float (ymd 2024 12 31) false))
    by reflexivity.
  assert (Hhi : (MAXORDINAL < toordinal last_day + 30)%Z) by reflexivity.
  split; [exact Hl |]. split; [exact Hhi |].
  destruct (renew_out_of_range_reactivates jan1 streaming 2 _ last_day Hl Hhi)
    as [Hdirect Hmanager].
  split; [exact Hdirect |]. apply (Hmanager "Hulu"). reflexivity.
Defined.

Lemma add_then_get_round_trip_witness :
  heap netflix_only !! 2 = Some (mkSubscription "Hulu" 4.99%float (ymd 2024 12 31) false)
  ∧ ("Hulu" ∉ PyDict.keys (_subscriptions netflix_only))
  ∧ ∃ σ', add_subscription 2 netflix_only = Some (Ok tt, σ')
          ∧ get_subscription "Hulu" σ' = Some (Ok 2, σ').
Proof.
  assert (Hl : heap netflix_only !! 2
               = Some (mkSubscription "Hulu" 4.99%float (ymd 2024 12 31) false))
    by reflexivity.
  assert (Hn : "Hulu" ∉ PyDict.keys (_subscriptions netflix_only)).
  { simpl. intros Hin. apply list_elem_of_singleton in Hin. discriminate. }
  split; [exact Hl |]. split; [exact Hn |].
  destruct (add_then_get_round_trip netflix_only 2 _ Hl Hn) as (σ' & Ha & _ & Hget & _).
  exists σ'. split; [exact Ha | exact Hget].
Defined.

Lemma remove_deletes_only_the_entry_witness :
  PyDict.get "Hulu" (_subscriptions streaming) = Some 2
  ∧ ∃ σ', remove_subscription "Hulu" streaming = Some (Ok tt, σ')
          ∧ heap σ' = heap streaming
          ∧ get_subscription "Hulu" σ' = Some (Raise KeyError, σ').
Proof.
  split; [reflexivity |].
  destruct (remove_deletes_only_the_entry streaming "Hulu" 2 eq_refl)
    as (σ' & Hr & Hh & Hget & _).
  exists σ'. split; [exact Hr |]. split; [exact Hh | exact Hget].
Defined.

Lemma add_then_remove_restores_witness :
  heap netflix_only !! 2 = Some (mkSubscription "Hulu" 4.99%float (ymd 2024 12 31) false)
  ∧ ("Hulu" ∉ PyDict.keys (_subscriptions netflix_only))
  ∧ ∃ σ1, add_subscription 2 netflix_only = Some (Ok tt, σ1)
          ∧ remove_subscription "Hulu" σ1 = Some (Ok tt, netflix_only).
Proof.
  assert (Hn : "Hulu" ∉ PyDict.keys (_subscriptions netflix_only)).
  { simpl. intros Hin. apply list_elem_of_singleton in Hin. discriminate. }
  split; [reflexivity |]. split; [exact Hn |].
  exact (add_then_remove_restores netflix_only 2
           (mkSubscription "Hulu" 4.99%float (ymd 2024 12 31) false) eq_refl Hn).
Defined.

Lemma remove_then_add_moves_last_witness :
  PyDict.get "Netflix" (_subscriptions streaming) = Some 1
  ∧ heap streaming !! 1 = Some (mkSubscription "Netflix" 4.99%float jan1 true)
  ∧ ∃ σ1 σ2, remove_subscription "Netflix" streaming = Some (Ok tt, σ1)
             ∧ add_subscription 1 σ1 = Some (Ok tt, σ2)
             ∧ PyDict.values (_subscriptions σ2) = [2; 3; 1].
Proof.
  split; [reflexivity |]. split; [reflexivity |].
  destruct (remove_then_add_moves_last streaming "Netflix" 1
              (mkSubscription "Netflix" 4.99%float jan1 true) eq_refl eq_refl eq_refl)
    as (σ1 & σ2 & Hr & Ha & _ & Hv).
  exists σ1, σ2. split; [exact Hr |]. split; [exact Ha |]. rewrite Hv. reflexivity.
Defined.

Lemma auto_cancel_later_date_absorbs_witness :
  heap_closed streaming
  ∧ le (ymd 2024 12 31) jan1 = true
  ∧ ∃ σ1 σ2,
      auto_cancel_subscriptions jan1 (Some (ymd 2024 12 31)) streaming = Some (Ok tt, σ1)
      ∧ auto_cancel_subscriptions jan1 (Some jan1) streaming = Some (Ok tt, σ2)
      ∧ auto_cancel_subscriptions jan1 (Some jan1) σ1 = Some (Ok tt, σ2).
Proof.
  split; [exact streaming_closed |]. split; [reflexivity |].
  destruct (auto_cancel_later_date_absorbs jan1 streaming (ymd 2024 12 31) jan1
              streaming_closed eq_refl) as (σ1 & σ2 & H1 & H2 & H12 & _).
  exists σ1, σ2. split; [exact H1 |]. split; [exact H2 | exact H12].
Defined.

Lemma auto_cancel_leaves_no_due_witness :
  heap_closed streaming
  ∧ ∃ σ', auto_cancel_subscriptions jan1 (Some jan1) streaming = Some (Ok tt, σ')
          ∧ ∀ l, is_active σ' l = true → is_active streaming l = true.
Proof.
  split; [exact streaming_closed |].
  destruct (auto_cancel_leaves_no_due jan1 jan1 streaming streaming_closed)
    as (σ' & Hrun & _ & Hact).
  exists σ'. split; [exact Hrun | exact Hact].
Defined.

Lemma calls_keep_name_and_cost_witness :
  exec jan1 (CRenew "Hulu" (Some jan1)) streaming
  = Some (Ok VNone,
          store streaming 2 (mkSubscription "Hulu" 4.99%float (ymd 2025 1 31) true))
  ∧ ∃ s', heap (store streaming 2
                  (mkSubscription "Hulu" 4.99%float (ymd 2025 1 31) true)) !! 2 = Some s'
          ∧ name s' = "Hulu" ∧ cost s' = 4.99%float.
Proof.
  assert (Hrun : exec jan1 (CRenew "Hulu" (Some jan1)) streaming
                 = Some (Ok VNone,
                         store streaming 2
                           (mkSubscription "Hulu" 4.99%float (ymd 2025 1 31) true)))
    by reflexivity.
  split; [exact Hrun |].
  exact (calls_keep_name_and_cost jan1 _ streaming _ _ Hrun 2
           (mkSubscription "Hulu" 4.99%float (ymd 2024 12 31) false) eq_refl).
Defined.

Lemma only_add_and_remove_change_the_total_witness :
  heap_closed streaming
  ∧ exec jan1 (CCancel "Netflix") streaming
    = Some (Ok VNone, store streaming 1 (mkSubscription "Netflix" 4.99%float jan1 false))
  ∧ ∃ x, total_monthly_cost false streaming = Some (Ok x, streaming)
         ∧ total_monthly_cost false
             (store streaming 1 (mkSubscription "Netflix" 4.99%float jan1 false))
           = Some (Ok x, store streaming 1 (mkSubscription "Netflix" 4.99%float jan1 false)).
Proof.
  assert (Hrun : exec jan1 (CCancel "Netflix") streaming
                 = Some (Ok VNone,
                         store streaming 1 (mkSubscription "Netflix" 4.99%float jan1 false)))
    by reflexivity.
  split; [exact streaming_closed |]. split; [exact Hrun |].
  apply (only_add_and_remove_change_the_total jan1 (CCancel "Netflix") streaming
           (Ok VNone) _ streaming_closed); [discriminate | discriminate | exact Hrun].
Defined.

Lemma calls_end_with_the_documented_errors_witness :
  heap_closed streaming
  ∧ live_call streaming (CRenew "Hulu" (Some last_day))
  ∧ ∃ r σ', exec jan1 (CRenew "Hulu" (Some last_day)) streaming = Some (r, σ')
            ∧ match r with
              | Ok _ => True
              | Raise e => may_raise (num := float) (CRenew "Hulu" (Some last_day)) e
                           ∧ (e ≠ OverflowError → σ' = streaming)
              end.
Proof.
  split; [exact streaming_closed |]. split; [exact I |].
  exact (calls_end_with_the_documented_errors jan1 (CRenew "Hulu" (Some last_day))
           streaming streaming_closed I).
Defined.

Lemma last_renew_wins_witness :
  heap streaming !! 2 = Some (mkSubscription "Hulu" 4.99%float (ymd 2024 12 31) false)
  ∧ valid jan1 ∧ (toordinal jan1 + 30 ≤ MAXORDINAL)%Z
  ∧ valid (ymd 2025 2 1) ∧ (toordinal (ymd 2025 2 1) + 30 ≤ MAXORDINAL)%Z
  ∧ ∃ σ1, Subscription_renew jan1 2 (Some (ymd 2025 2 1)) streaming = Some (Ok tt, σ1)
          ∧ Subscription_renew jan1 2 (Some jan1) σ1
            = Some (Ok tt, store streaming 2
                             (mkSubscription "Hulu" 4.99%float (ymd 2025 1 31) true)).
Proof.
  assert (Hl : heap streaming !! 2
               = Some (mkSubscription "Hulu" 4.99%float (ymd 2024 12 31) false))
    by reflexivity.
  assert (Hv : valid jan1) by (split; discriminate).
  assert (Hr : (toordinal jan1 + 30 ≤ MAXORDINAL)%Z) by discriminate.
  assert (Hv0 : valid (ymd 2025 2 1)) by (split; discriminate).
  assert (Hr0 : (toordinal (ymd 2025 2 1) + 30 ≤ MAXORDINAL)%Z) by discriminate.
  repeat (split; [assumption |]).
  exact (proj1 (proj2 (last_renew_wins jan1 streaming 2 _ jan1 (ymd 2025 2 1)
                         Hl Hv Hr Hv0 Hr0))).
Defined.

Lemma cancel_drops_from_the_active_listing_witness :
  heap_closed streaming
  ∧ PyDict.get "Netflix" (_subscriptions streaming) = Some 1
  ∧ ∃ σ' before,
      cancel_subscription "Netflix" streaming = Some (Ok tt, σ')
      ∧ list_subscriptions true streaming = Some (Ok before, streaming)
      ∧ list_subscriptions true σ' = Some (Ok (filter (λ l', l' ≠ 1) before), σ').
Proof.
  split; [exact streaming_closed |]. split; [reflexivity |].
  destruct (cancel_drops_from_the_active_listing streaming "Netflix" 1
              streaming_closed eq_refl) as (σ' & before & Hc & _ & Hb & Ha).
  exists σ', before. split; [exact Hc |]. split; [exact Hb | exact Ha].
Defined.

Lemma renew_enters_the_active_listing_witness :
  heap_closed streaming
  ∧ PyDict.get "Gym" (_subscriptions streaming) = Some 3
  ∧ valid jan1 ∧ (toordinal jan1 + 30 ≤ MAXORDINAL)%Z
  ∧ ∃ σ', renew_subscription jan1 "Gym" (Some jan1) streaming = Some (Ok tt, σ')
          ∧ list_subscriptions true σ' = Some (Ok [1; 3], σ').
Proof.
  assert (Hv : valid jan1) by (split; discriminate).
  assert (Hr : (toordinal jan1 + 30 ≤ MAXORDINAL)%Z) by discriminate.
  split; [exact streaming_closed |]. split; [reflexivity |].
  split; [exact Hv |]. split; [exact Hr |].
  destruct (renew_enters_the_active_listing jan1 streaming "Gym" 3 jan1
              streaming_closed eq_refl Hv Hr) as (σ' & Hrun & _ & Hact).
  exists σ'. split; [exact Hrun |]. rewrite Hact. reflexivity.
Defined.

Lemma cancel_moves_cost_to_savings_witness :
  manager_inv streaming_cents
  ∧ PyDict.get "Netflix" (_subscriptions streaming_cents) = Some 1
  ∧ heap streaming_cents !! 1 = Some (mkSubscription "Netflix" 499%Z jan1 true)
  ∧ ∃ σ' paid saved paid' saved' : _,
      cancel_subscription "Netflix" streaming_cents = Some (Ok tt, σ')
      ∧ total_monthly_cost true streaming_cents = Some (Ok paid, streaming_cents)
      ∧ total_savings streaming_cents = Some (Ok saved, streaming_cents)
      ∧ total_monthly_cost true σ' = Some (Ok paid', σ')
      ∧ total_savings σ' = Some (Ok saved', σ')
      ∧ paid = (499 + paid')%Z
      ∧ saved' = (499 + saved)%Z.
Proof.
  split; [exact streaming_cents_inv |]. split; [reflexivity |]. split; [reflexivity |].
  exact (cancel_moves_cost_to_savings Z.add_assoc Z.add_comm Z.add_0_l
           streaming_cents "Netflix" 1 _ streaming_cents_inv eq_refl eq_refl eq_refl).
Defined.

End MoreWitnesses.

Section AbsentNames.
Context {num : Type} `{!PyNum num}.
Implicit Types (σ : state num) (n : string).

Lemma renew_subscription_absent clock σ n (today : option date) :
  PyDict.contains n (_subscriptions σ) = false →
  renew_subscription clock n today σ = Some (Raise KeyError, σ).
Proof. intros Hc. unfold renew_subscription, bind, get_dict. by rewrite Hc. Qed.

Lemma cancel_subscription_absent σ n :
  PyDict.contains n (_subscriptions σ) = false →
  cancel_subscription n σ = Some (Raise KeyError, σ).
Proof. intros Hc. unfold cancel_subscription, bind, get_dict. by rewrite Hc. Qed.

End AbsentNames.

Section InvariantSteps.
Context {num : Type} `{!PyNum num}.
Implicit Types (σ : state num) (l : loc) (n : string).

Lemma manager_inv_quiet {A} (m : Py num A) σ r σ' :
  quiet m → manager_inv σ → m σ = Some (r, σ') → manager_inv σ'.
Proof.
  intros Hq Hinv Hrun. destruct (Hq _ _ _ Hrun) as [Hd Hn].
  by apply (manager_inv_step CTotalSavings (Ok VNone) σ σ').
Qed.

Lemma manager_inv_add l σ (r : result unit) σ' :
  manager_inv σ → add_subscription l σ = Some (r, σ') → manager_inv σ'.
Proof.
  intros Hinv Hrun. destruct (add_effect _ _ _ _ Hrun) as [Hn Hd].
  destruct r as [[]|e].
  - by apply (manager_inv_step (CAdd l) (Ok VNone) σ σ').
  - by apply (manager_inv_step (CAdd l) (Raise e) σ σ').
Qed.

Lemma manager_inv_remove n σ (r : result unit) σ' :
  manager_inv σ → remove_subscription n σ = Some (r, σ') → manager_inv σ'.
Proof.
  intros Hinv Hrun. destruct (remove_effect _ _ _ _ Hrun) as [Hn Hd].
  destruct r as [[]|e].
  - by apply (manager_inv_step (CRemove n) (Ok VNone) σ σ').
  - by apply (manager_inv_step (CRemove n) (Raise e) σ σ').
Qed.

Lemma manager_inv_live σ n l :
  manager_inv σ → PyDict.get n (_subscriptions σ) = Some l → is_Some (heap σ !! l).
Proof.
  intros [_ Hkey] Hg. pose proof (manager_inv_closed _ Hkey) as Hclosed.
  eapply Forall_forall in Hclosed; [exact Hclosed |].
  by eapply PyDictFacts.get_Some_value.
Qed.

End InvariantSteps.

(** * The command-line front end *)

Section CliOutcomes.
Import Cli CliHandlers.
Context {num : Type} `{!PyNum num}.
Variable strip : string → string.
Variable to_float : string → option num.
Variable strptime_ymd : string → option date.
Variable format_2f : num → string.
Variable date_str : date → string.
Variable clock : date.
Implicit Types (σ : state num) (o : list out) (rest : list string) (d : date).

Local Ltac io_unfold :=
  cbv [bind except input_stripped input print ret fail float_of
       parse_date call stdin stdout manager].

Local Ltac io_done := cbn [app]; rewrite <- ?app_assoc; cbn [app]; done.

(** X15: the add prompt on a cost that [float] rejects, or on a date
    that [strptime] rejects, reads no further line, prints the
    complaint, returns, and leaves the manager as it was. *)
Theorem cli_add_rejects_malformed_input name_line cost_line rest o σ :
  (to_float (strip cost_line) = None →
     add_subscription strip to_float strptime_ymd
       (World (name_line :: cost_line :: rest) o σ)
     = Some (Done tt,
             World rest
               (o ++ [Prompt "Enter subscription name: ";
                      Prompt "Enter monthly cost (e.g. 9.99): ";
                      Line "Invalid cost. Please enter a numeric value."])
               σ))
  ∧ (∀ x date_line rest',
       rest = date_line :: rest' →
       to_float (strip cost_line) = Some x →
       strptime_ymd (strip date_line) = None →
       add_subscription strip to_float strptime_ymd
         (World (name_line :: cost_line :: rest) o σ)
       = Some (Done tt,
               World rest'
                 (o ++ [Prompt "Enter subscription name: ";
                        Prompt "Enter monthly cost (e.g. 9.99): ";
                        Prompt "Enter renewal date (YYYY‑MM‑DD): ";
                        Line "Invalid date format. Please use YYYY‑MM‑DD."])
                 σ)).
Proof.
  split.
  - intros Hc. unfold add_subscription. io_unfold. rewrite Hc.
    rewrite decide_True by done. io_done.
  - intros x date_line rest' -> Hc Hd. unfold add_subscription. io_unfold.
    rewrite Hc, Hd. rewrite decide_True by done. io_done.
Qed.

(** X16: the add prompt on a cost and a date that parse constructs an
    active subscription with the stripped name and these values; when
    the name is new the manager gets it as its last entry and the
    prompt reports success; when the name is taken the prompt prints
    the [ValueError] message and the dictionary and the objects that
    existed stay as they were. *)
Theorem cli_add_inserts_or_reports_duplicate name_line cost_line date_line rest o σ x d :
  to_float (strip cost_line) = Some x →
  strptime_ymd (strip date_line) = Some d →
  let name := strip name_line in
  let sub := fresh (dom (heap σ)) in
  let created := store σ sub (mkSubscription name x d true) in
  let shown := o ++ [Prompt "Enter subscription name: ";
                     Prompt "Enter monthly cost (e.g. 9.99): ";
                     Prompt "Enter renewal date (YYYY‑MM‑DD): "] in
  heap σ !! sub = None
  ∧ (name ∉ PyDict.keys (_subscriptions σ) →
       add_subscription strip to_float strptime_ymd
         (World (name_line :: cost_line :: date_line :: rest) o σ)
       = Some (Done tt,
               World rest
                 (shown ++ [Line ("Subscription '" +:+ name +:+ "' added successfully.")])
                 (State (heap created) (_subscriptions σ ++ [(name, sub)]))))
  ∧ (name ∈ PyDict.keys (_subscriptions σ) →
       add_subscription strip to_float strptime_ymd
         (World (name_line :: cost_line :: date_line :: rest) o σ)
       = Some (Done tt,
               World rest
                 (shown ++ [Line ("Subscription '" +:+ name +:+ "' already exists.")])
                 created)).
Proof.
  intros Hc Hd name sub created shown. subst name sub created shown.
  set (key := strip name_line). set (sub := fresh (dom (heap σ))).
  set (new := mkSubscription key x d true).
  assert (Hinit : Subscription_init key x d None σ = Some (Ok sub, store σ sub new))
    by done.
  assert (Hsub : heap (store σ sub new) !! sub = Some new) by apply lookup_insert_eq.
  split; [apply not_elem_of_dom, is_fresh |]. split.
  - intros Hn. apply PyDictFacts.contains_false in Hn.
    unfold add_subscription. io_unfold. fold key. rewrite Hc, Hd, Hinit.
    rewrite (add_fresh (store σ sub new) sub _ Hsub Hn). io_done.
  - intros Hn. apply PyDictFacts.contains_true in Hn.
    unfold add_subscription. io_unfold. fold key. rewrite Hc, Hd, Hinit.
    rewrite (add_duplicate (store σ sub new) sub _ Hsub Hn).
    rewrite decide_True by done. io_done.
Qed.

(** X17: the remove prompt deletes the entry of the stripped name and
    reports it, or, when the name is not a key, prints that it does not
    exist and leaves the manager as it was; no [KeyError] gets out. *)
Theorem cli_remove_reports name_line rest o σ :
  let key := strip name_line in
  (key ∈ PyDict.keys (_subscriptions σ) →
     remove_subscription strip (World (name_line :: rest) o σ)
     = Some (Done tt,
             World rest
               (o ++ [Prompt "Enter subscription name to remove: ";
                      Line ("Subscription '" +:+ key +:+ "' removed.")])
               (State (heap σ) (PyDict.del key (_subscriptions σ)))))
  ∧ (key ∉ PyDict.keys (_subscriptions σ) →
     remove_subscription strip (World (name_line :: rest) o σ)
     = Some (Done tt,
             World rest
               (o ++ [Prompt "Enter subscription name to remove: ";
                      Line ("Subscription '" +:+ key +:+ "' does not exist.")])
               σ)).
Proof.
  intros key. split; intros Hn.
  - apply PyDictFacts.contains_true in Hn.
    unfold remove_subscription. io_unfold. fold key.
    rewrite (remove_present σ _ Hn). io_done.
  - apply PyDictFacts.contains_false in Hn.
    unfold remove_subscription. io_unfold. fold key.
    rewrite (remove_absent σ _ Hn). rewrite decide_True by done. io_done.
Qed.

(** X18: the renew prompt with a date that parses: for a name that is
    not a key it prints that it does not exist and changes nothing; for
    an existing name and a date whose 30-day successor exists it renews
    and prints the new renewal date; for an existing name and a later
    date the [OverflowError] is not caught: the prompt ends with it,
    after the subscription was made active. *)
Theorem cli_renew_outcomes name_line date_line rest o σ d :
  strptime_ymd (strip date_line) = Some d →
  let key := strip name_line in
  let w := World (name_line :: date_line :: rest) o σ in
  let shown := o ++ [Prompt "Enter subscription name to renew: ";
                     Prompt "Enter today's date (YYYY‑MM‑DD): "] in
  (key ∉ PyDict.keys (_subscriptions σ) →
     renew_subscription strip strptime_ymd date_str clock w
     = Some (Done tt,
             World rest
               (shown ++ [Line ("Subscription '" +:+ key +:+ "' does not exist.")])
               σ))
  ∧ (∀ l s,
       PyDict.get key (_subscriptions σ) = Some l →
       heap σ !! l = Some s →
       ((0 < toordinal d + 30 ≤ PyDate.MAXORDINAL)%Z →
          renew_subscription strip strptime_ymd date_str clock w
          = Some (Done tt,
                  World rest
                    (shown ++ [Line ("Subscription '" +:+ key
                                     +:+ "' renewed. Next renewal date: "
                                     +:+ date_str (Date (toordinal d + 30)) +:+ ".")])
                    (store σ l (mkSubscription (name s) (cost s)
                                  (Date (toordinal d + 30)) true))))
       ∧ ((PyDate.MAXORDINAL < toordinal d + 30)%Z →
          renew_subscription strip strptime_ymd date_str clock w
          = Some (Fail (Core OverflowError),
                  World rest shown
                    (store σ l (mkSubscription (name s) (cost s)
                                  (renewal_date s) true))))).
Proof.
  intros Hd key w shown. subst w shown. split.
  - intros Hn. apply PyDictFacts.contains_false in Hn.
    pose proof (PyDictFacts.contains_false_get _ _ Hn) as Hg.
    unfold renew_subscription. io_unfold. fold key. rewrite Hd.
    rewrite (renew_subscription_absent clock σ key (Some d) Hn).
    rewrite decide_True by done. io_done.
  - intros l s Hg Hl. split; intros Hrange.
    + unfold renew_subscription. io_unfold. fold key. rewrite Hd.
      rewrite (renew_subscription_present clock σ key l (Some d) Hg).
      rewrite (renew_live clock σ l s (Some d) _ Hl (add_days_in_range d 30 Hrange)).
      erewrite get_subscription_present by exact Hg.
      erewrite getattr_live by apply lookup_insert_eq. io_done.
    + unfold renew_subscription. io_unfold. fold key. rewrite Hd.
      rewrite (renew_subscription_present clock σ key l (Some d) Hg).
      rewrite (renew_overflow clock σ l s (Some d) Hl (add_days_overflow d 30 Hrange)).
      rewrite decide_False by done. io_done.
Qed.

(** X19: the auto-cancel prompt on a date that [strptime] rejects
    prints the complaint and changes nothing; on a date that parses it
    performs [auto_cancel_subscriptions] for that date and reports it. *)
Theorem cli_auto_cancel_outcomes date_line rest o σ :
  heap_closed σ →
  let w := World (date_line :: rest) o σ in
  (strptime_ymd (strip date_line) = None →
     auto_cancel strip strptime_ymd clock w
     = Some (Done tt,
             World rest
               (o ++ [Prompt "Enter today's date (YYYY‑MM‑DD): ";
                      Line "Invalid date format. Please use YYYY‑MM‑DD."])
               σ))
  ∧ (∀ d, strptime_ymd (strip date_line) = Some d →
       ∃ σ', auto_cancel_subscriptions clock (Some d) σ = Some (Ok tt, σ')
             ∧ auto_cancel strip strptime_ymd clock w
               = Some (Done tt,
                       World rest
                         (o ++ [Prompt "Enter today's date (YYYY‑MM‑DD): ";
                                Line "Subscriptions due for renewal have been cancelled."])
                         σ')).
Proof.
  intros Hclosed w. subst w. split.
  - intros Hd. unfold auto_cancel. io_unfold. rewrite Hd.
    rewrite decide_True by done. io_done.
  - intros d Hd. eexists. split; [by apply auto_cancel_run |].
    unfold auto_cancel. io_unfold. rewrite Hd.
    rewrite (auto_cancel_run clock (Some d) σ Hclosed). io_done.
Qed.

Lemma describe_live sub s i o σ :
  heap σ !! sub = Some s →
  bind (describe format_2f date_str sub) (λ text, print text) (World i o σ)
  = Some (Done tt, World i (o ++ [CliSpec.listing_line format_2f date_str s]) σ).
Proof.
  intros Hl. unfold describe. io_unfold.
  rewrite !(getattr_live _ σ sub s Hl). unfold CliSpec.listing_line.
  by destruct (active s).
Qed.

Lemma print_each_live (subs : list loc) : ∀ i o σ,
  Forall (λ l, is_Some (heap σ !! l)) subs →
  print_each format_2f date_str subs (World i o σ)
  = Some (Done tt,
          World i (o ++ (CliSpec.listing_line format_2f date_str
                           <$> omap (λ l, heap σ !! l) subs)) σ).
Proof.
  induction subs as [|sub subs IH]; intros i o σ Hlive.
  - simpl. unfold ret. by rewrite app_nil_r.
  - apply Forall_cons in Hlive as [[s Hl] Hlive].
    cbn [print_each omap list_omap]. rewrite Hl. unfold bind at 1.
    rewrite (describe_live sub s i o σ Hl). rewrite (IH _ _ _ Hlive).
    rewrite fmap_cons. by rewrite <- app_assoc.
Qed.

(** X20: the list prompt prints one line per subscription of the
    requested listing, in listing order, each with the name, the
    formatted cost, the renewal date and the status, or the line
    [No subscriptions found.] when the listing is empty; it reads no
    input and leaves the manager as it was. *)
Theorem cli_list_prints_the_listing (active_only : bool) i o σ :
  heap_closed σ →
  let listed :=
    if active_only then filter (λ s, active s) (subscriptions_of σ)
    else subscriptions_of σ in
  list_subscriptions format_2f date_str active_only (World i o σ)
  = Some (Done tt,
          World i
            (o ++ match listed with
                  | [] => [Line "No subscriptions found."]
                  | _ => CliSpec.listing_line format_2f date_str <$> listed
                  end)
            σ).
Proof.
  intros Hclosed listed.
  assert (Hcall : ∃ subs,
            manager_list_subscriptions active_only σ = Some (Ok subs, σ)
            ∧ Forall (λ l, is_Some (heap σ !! l)) subs
            ∧ omap (λ l, heap σ !! l) subs = listed).
  { destruct active_only.
    - eexists. split; [by apply list_active |]. split.
      + by apply Forall_live_filter.
      + by apply omap_filter_active.
    - eexists. split; [apply list_all |]. split; done. }
  destruct Hcall as (subs & Hcall & Hlive & Hrec).
  unfold list_subscriptions, bind at 1, call. cbn [manager stdin stdout].
  rewrite Hcall. destruct subs as [|sub subs].
  - simpl in Hrec. by rewrite <- Hrec.
  - rewrite (print_each_live _ _ _ _ Hlive). rewrite Hrec.
    pose proof Hlive as Hl. apply Forall_cons in Hl as [[s Hs] _].
    cbn [omap list_omap] in Hrec. rewrite Hs in Hrec. by rewrite <- Hrec.
Qed.

End CliOutcomes.

Section CliSessions.
Import Cli CliHandlers CliSpec.
Context {num : Type} `{!PyNum num}.
Variable strip : string → string.
Variable to_float : string → option num.
Variable strptime_ymd : string → option date.
Variable format_2f : num → string.
Variable date_str : date → string.
Variable clock : date.
Implicit Types (σ : state num) (o : list out) (rest : list string) (d : date).

Local Ltac io_unfold :=
  cbv [bind except input_stripped input print ret fail float_of
       parse_date call stdin stdout manager].

Local Ltac io_done := cbn [app]; rewrite <- ?app_assoc; cbn [app]; done.

Local Ltac suffix_done :=
  cbn [stdin]; repeat (apply suffix_cons_r); first [reflexivity | apply suffix_nil].

Local Ltac prefix_done :=
  cbn [stdout]; repeat (apply prefix_app_r); reflexivity.

(** One case of [ends_well]: the run, then the four side conditions. *)
Local Ltac ends_with trun tinv :=
  eexists _, (World _ _ _);
  split; [trun; reflexivity |];
  split; [cbn [manager]; tinv |];
  split; [suffix_done |];
  split; [prefix_done | cbn [stdin]; done].

Lemma remove_ends_well : ends_well (remove_subscription (num := num) strip).
Proof.
  intros [i o σ] Hinv. cbn [manager] in Hinv. destruct i as [|name_line rest].
  { ends_with ltac:(unfold remove_subscription; io_unfold) ltac:(exact Hinv). }
  destruct (PyDict.contains (strip name_line) (_subscriptions σ)) eqn:Hn.
  - pose proof (remove_present σ _ Hn) as Hrun.
    ends_with ltac:(unfold remove_subscription; io_unfold; rewrite Hrun)
              ltac:(by eapply manager_inv_remove).
  - pose proof (remove_absent σ _ Hn) as Hrun.
    ends_with ltac:(unfold remove_subscription; io_unfold; rewrite Hrun;
                    rewrite decide_True by done)
              ltac:(exact Hinv).
Qed.

Lemma add_ends_well :
  ends_well (add_subscription (num := num) strip to_float strptime_ymd).
Proof.
  intros [i o σ] Hinv. cbn [manager] in Hinv.
  destruct i as [|name_line [|cost_line rest]].
  { ends_with ltac:(unfold add_subscription; io_unfold) ltac:(exact Hinv). }
  { ends_with ltac:(unfold add_subscription; io_unfold) ltac:(exact Hinv). }
  destruct (to_float (strip cost_line)) as [x|] eqn:Hc; cycle 1.
  { ends_with ltac:(unfold add_subscription; io_unfold; rewrite Hc;
                    rewrite decide_True by done)
              ltac:(exact Hinv). }
  destruct rest as [|date_line rest].
  { ends_with ltac:(unfold add_subscription; io_unfold; rewrite Hc)
              ltac:(exact Hinv). }
  destruct (strptime_ymd (strip date_line)) as [d|] eqn:Hd; cycle 1.
  { ends_with ltac:(unfold add_subscription; io_unfold; rewrite Hc, Hd;
                    rewrite decide_True by done)
              ltac:(exact Hinv). }
  set (key := strip name_line). set (sub := fresh (dom (heap σ))).
  set (new := mkSubscription key x d true).
  assert (Hinit : Subscription_init key x d None σ = Some (Ok sub, store σ sub new))
    by done.
  assert (Hsub : heap (store σ sub new) !! sub = Some new) by apply lookup_insert_eq.
  pose proof (manager_inv_quiet _ _ _ _ (quiet_init key x d None) Hinv Hinit) as Hinv1.
  destruct (PyDict.contains key (_subscriptions σ)) eqn:Hn.
  - pose proof (add_duplicate (store σ sub new) sub _ Hsub Hn) as Hrun.
    ends_with ltac:(unfold add_subscription; io_unfold; fold key;
                    rewrite Hc, Hd, Hinit, Hrun; rewrite decide_True by done)
              ltac:(exact Hinv1).
  - pose proof (add_fresh (store σ sub new) sub _ Hsub Hn) as Hrun.
    ends_with ltac:(unfold add_subscription; io_unfold; fold key;
                    rewrite Hc, Hd, Hinit, Hrun)
              ltac:(by eapply manager_inv_add).
Qed.

Lemma list_ends_well (active_only : bool) :
  ends_well (list_subscriptions (num := num) format_2f date_str active_only).
Proof.
  intros [i o σ] Hinv. cbn [manager] in Hinv.
  pose proof (manager_inv_closed _ (proj2 Hinv)) as Hclosed.
  assert (Hcall : ∃ subs,
            manager_list_subscriptions active_only σ = Some (Ok subs, σ)
            ∧ Forall (λ l, is_Some (heap σ !! l)) subs).
  { destruct active_only.
    - eexists. split; [by apply list_active | by apply Forall_live_filter].
    - eexists. split; [apply list_all | done]. }
  destruct Hcall as (subs & Hcall & Hlive). destruct subs as [|sub subs].
  - ends_with ltac:(unfold list_subscriptions; io_unfold; rewrite Hcall)
              ltac:(exact Hinv).
  - pose proof (print_each_live format_2f date_str _ i o σ Hlive) as Hprint.
    ends_with ltac:(unfold list_subscriptions, bind, call; cbn [manager stdin stdout];
                    rewrite Hcall, Hprint)
              ltac:(exact Hinv).
Qed.

Lemma auto_cancel_ends_well :
  ends_well (auto_cancel (num := num) strip strptime_ymd clock).
Proof.
  intros [i o σ] Hinv. cbn [manager] in Hinv.
  pose proof (manager_inv_closed _ (proj2 Hinv)) as Hclosed.
  destruct i as [|date_line rest].
  { ends_with ltac:(unfold auto_cancel; io_unfold) ltac:(exact Hinv). }
  destruct (strptime_ymd (strip date_line)) as [d|] eqn:Hd.
  - pose proof (auto_cancel_run clock (Some d) σ Hclosed) as Hrun.
    ends_with ltac:(unfold auto_cancel; io_unfold; rewrite Hd, Hrun)
              ltac:(by eapply (manager_inv_quiet _ _ _ _ (quiet_auto_cancel clock (Some d)))).
  - ends_with ltac:(unfold auto_cancel; io_unfold; rewrite Hd;
                    rewrite decide_True by done)
              ltac:(exact Hinv).
Qed.

Lemma renew_ends_well :
  ends_well (renew_subscription (num := num) strip strptime_ymd date_str clock).
Proof.
  intros [i o σ] Hinv. cbn [manager] in Hinv.
  destruct i as [|name_line [|date_line rest]].
  { ends_with ltac:(unfold renew_subscription; io_unfold) ltac:(exact Hinv). }
  { ends_with ltac:(unfold renew_subscription; io_unfold) ltac:(exact Hinv). }
  destruct (strptime_ymd (strip date_line)) as [d|] eqn:Hd; cycle 1.
  { ends_with ltac:(unfold renew_subscription; io_unfold; rewrite Hd;
                    rewrite decide_True by done)
              ltac:(exact Hinv). }
  set (key := strip name_line).
  destruct (PyDict.get key (_subscriptions σ)) as [l|] eqn:Hg; cycle 1.
  { assert (Hn : PyDict.contains key (_subscriptions σ) = false)
      by (unfold PyDict.contains; by rewrite Hg).
    pose proof (renew_subscription_absent clock σ key (Some d) Hn) as Hrun.
    ends_with ltac:(unfold renew_subscription; io_unfold; fold key;
                    rewrite Hd, Hrun; rewrite decide_True by done)
              ltac:(exact Hinv). }
  destruct (manager_inv_live _ _ _ Hinv Hg) as [s Hl].
  pose proof (renew_subscription_present clock σ key l (Some d) Hg) as Hvia.
  destruct (add_days_cases d 30) as [[d' Hadd]|Hadd].
  - pose proof (renew_live clock σ l s (Some d) d' Hl Hadd) as Hrun.
    rewrite <- Hvia in Hrun.
    assert (Hget : get_subscription key
                     (store σ l (mkSubscription (name s) (cost s) d' true))
                   = Some (Ok l, store σ l (mkSubscription (name s) (cost s) d' true)))
      by (by apply get_subscription_present).
    assert (Hattr : getattr renewal_date l
                      (store σ l (mkSubscription (name s) (cost s) d' true))
                    = Some (Ok d', store σ l (mkSubscription (name s) (cost s) d' true))).
    { apply (getattr_live renewal_date _ l (mkSubscription (name s) (cost s) d' true)).
      apply lookup_insert_eq. }
    ends_with ltac:(unfold renew_subscription; io_unfold; fold key;
                    rewrite Hd, Hrun, Hget, Hattr)
              ltac:(by eapply (manager_inv_quiet _ _ _ _
                                 (quiet_renew_subscription clock key (Some d)))).
  - pose proof (renew_overflow clock σ l s (Some d) Hl Hadd) as Hrun.
    rewrite <- Hvia in Hrun.
    ends_with ltac:(unfold renew_subscription; io_unfold; fold key;
                    rewrite Hd, Hrun; rewrite decide_False by done)
              ltac:(by eapply (manager_inv_quiet _ _ _ _
                                 (quiet_renew_subscription clock key (Some d)))).
Qed.

Lemma show_totals_ends_well : ends_well (show_totals (num := num) format_2f).
Proof.
  intros [i o σ] Hinv. cbn [manager] in Hinv.
  pose proof (manager_inv_closed _ (proj2 Hinv)) as Hclosed.
  pose proof (total_monthly_cost_active σ Hclosed) as Hpaid.
  pose proof (total_savings_inactive σ Hclosed) as Hsaved.
  ends_with ltac:(unfold show_totals; io_unfold; rewrite Hpaid, Hsaved)
            ltac:(exact Hinv).
Qed.

(** X21: each of the seven menu actions, run on a manager that
    satisfies its invariant, ends and keeps the invariant, only consumes
    input and only adds output, and lets no [ValueError] or [KeyError]
    out: it returns, or ends with [EOFError] when the input is used up,
    or with [OverflowError]. *)
Theorem cli_actions_end_well :
  ends_well (add_subscription (num := num) strip to_float strptime_ymd)
  ∧ ends_well (remove_subscription (num := num) strip)
  ∧ ends_well (list_subscriptions (num := num) format_2f date_str false)
  ∧ ends_well (list_subscriptions (num := num) format_2f date_str true)
  ∧ ends_well (auto_cancel (num := num) strip strptime_ymd clock)
  ∧ ends_well (renew_subscription (num := num) strip strptime_ymd date_str clock)
  ∧ ends_well (show_totals (num := num) format_2f).
Proof.
  split; [apply add_ends_well |]. split; [apply remove_ends_well |].
  split; [apply list_ends_well |]. split; [apply list_ends_well |].
  split; [apply auto_cancel_ends_well |]. split; [apply renew_ends_well |].
  apply show_totals_ends_well.
Qed.

Local Abbreviation the_actions :=
  (actions strip to_float strptime_ymd format_2f date_str clock).
Local Abbreviation loop :=
  (main_loop strip to_float strptime_ymd format_2f date_str clock).

Lemma chosen_action_ends_well key desc f :
  PyDict.get key the_actions = Some (desc, Some f) → ends_well f.
Proof.
  intros Hg. cbn [actions PyDict.get] in Hg.
  repeat (case_decide;
          [injection Hg as <- <-;
           first [ apply add_ends_well | apply remove_ends_well | apply list_ends_well
                 | apply auto_cancel_ends_well | apply renew_ends_well
                 | apply show_totals_ends_well ] |]);
    try case_decide; discriminate.
Qed.

Lemma menu_shown i o σ :
  print_menu the_actions
    (World i (o ++ [Line (String (Ascii.ascii_of_nat 10) "Subscription Manager CLI")]) σ)
  = Some (Done tt, World i (o ++ menu) σ).
Proof.
  cbv [actions print_menu bind print ret stdin stdout manager menu].
  cbn [String.append]. io_done.
Qed.

Lemma main_loop_eof k o σ :
  loop (S k) (World [] o σ)
  = Some (Fail EOFError, World [] (o ++ menu ++ [Prompt "Choose an option: "]) σ).
Proof.
  cbn [main_loop]. unfold bind at 1, print at 1. cbn [stdin stdout manager].
  unfold bind at 1. rewrite menu_shown. io_unfold. by rewrite <- app_assoc.
Qed.

Lemma main_loop_round k line rest o σ :
  loop (S k) (World (line :: rest) o σ)
  = let shown := o ++ menu ++ [Prompt "Choose an option: "] in
    match PyDict.get (strip line) the_actions with
    | None =>
        loop k (World rest
                  (shown ++ [Line "Invalid choice. Please select a valid option."]) σ)
    | Some (_, func) =>
        if decide (strip line = "8")
        then Some (Done tt, World rest (shown ++ [Line "Goodbye!"]) σ)
        else match func with
             | Some f => bind f (λ _, loop k) (World rest shown σ)
             | None => loop k (World rest shown σ)
             end
    end.
Proof.
  cbn [main_loop]. unfold bind at 1, print at 1. cbn [stdin stdout manager].
  unfold bind at 1. rewrite menu_shown. cbv zeta. rewrite (app_assoc o).
  unfold bind at 1, input_stripped, bind at 1, input, ret.
  cbn [stdin stdout manager].
  destruct (PyDict.get (strip line) the_actions) as [[desc func]|]; [| done].
  destruct (decide (strip line = "8")); [done |]. by destruct func.
Qed.

Lemma main_loop_ends k : ∀ w : world (num := num),
  manager_inv (manager w) →
  length (stdin w) < k →
  ∃ r w', loop k w = Some (r, w')
          ∧ manager_inv (manager w')
          ∧ match r with
            | Done _ => last (stdout w') = Some (Line "Goodbye!")
            | Fail EOFError => stdin w' = []
            | Fail (Core e) => e = OverflowError
            end.
Proof.
  induction k as [|k IH]; intros [i o σ] Hinv Hlen; cbn [stdin manager] in *; [lia |].
  destruct i as [|line rest].
  { rewrite main_loop_eof. eexists _, _. split; [reflexivity |]. by split. }
  rewrite main_loop_round. cbv zeta. cbn [length] in Hlen.
  assert (Hnext : ∀ o', ∃ r w',
            loop k (World rest o' σ) = Some (r, w')
            ∧ manager_inv (manager w')
            ∧ match r with
              | Done _ => last (stdout w') = Some (Line "Goodbye!")
              | Fail EOFError => stdin w' = []
              | Fail (Core e) => e = OverflowError
              end).
  { intros o'. apply IH; cbn [stdin manager]; [done | lia]. }
  destruct (PyDict.get (strip line) the_actions) as [[desc func]|] eqn:Hg;
    [| apply Hnext].
  destruct (decide (strip line = "8")).
  { eexists _, _. split; [reflexivity |]. split; [done |].
    cbn [stdout]. apply last_snoc. }
  destruct func as [f|]; [| apply Hnext].
  destruct (chosen_action_ends_well _ _ _ Hg
              (World rest (o ++ menu ++ [Prompt "Choose an option: "]) σ) Hinv)
    as (r1 & w1 & Hrun & Hinv1 & Hsuf & _ & Hr1).
  unfold bind. rewrite Hrun. destruct r1 as [[]|e].
  - apply IH; [done |]. apply suffix_length in Hsuf. cbn [stdin] in Hsuf. lia.
  - eexists _, _. split; [reflexivity |]. by split.
Qed.

(** X22: on every finite input the interactive loop of [main] ends
    (a number of rounds above the number of input lines is never used
    up): it returns only after printing [Goodbye!], or it ends with
    [EOFError] when the input is used up, or with the [OverflowError]
    of a renewal; the manager satisfies its invariant at the end. *)
Theorem cli_main_terminates (rounds : nat) (lines : list string) :
  length lines < rounds →
  ∃ r w',
    main strip to_float strptime_ymd format_2f date_str clock rounds lines
    = Some (r, w')
    ∧ manager_inv (manager w')
    ∧ match r with
      | Done _ => last (stdout w') = Some (Line "Goodbye!")
      | Fail EOFError => stdin w' = []
      | Fail (Core e) => e = OverflowError
      end.
Proof.
  intros Hlen. unfold main. apply main_loop_ends; cbn [stdin manager]; [| done].
  apply init_manager_inv.
Qed.

(** X23: one round of the menu: the choice [8] prints [Goodbye!] and
    returns with the manager untouched; a choice that is not in the
    menu prints the complaint, changes nothing in the manager and
    starts the next round; at the end of the input the round ends with
    [EOFError] after showing the menu and the prompt. *)
Theorem cli_menu_round k line rest o σ :
  let shown := o ++ menu ++ [Prompt "Choose an option: "] in
  (strip line = "8" →
     loop (S k) (World (line :: rest) o σ)
     = Some (Done tt, World rest (shown ++ [Line "Goodbye!"]) σ))
  ∧ (PyDict.get (strip line) the_actions = None →
     loop (S k) (World (line :: rest) o σ)
     = loop k (World rest
                 (shown ++ [Line "Invalid choice. Please select a valid option."]) σ))
  ∧ loop (S k) (World [] o σ) = Some (Fail EOFError, World [] shown σ).
Proof.
  intros shown. split; [| split].
  - intros Hc. rewrite main_loop_round. cbv zeta. rewrite Hc.
    cbn [actions PyDict.get]. repeat (rewrite decide_False by done).
    by rewrite !decide_True by done.
  - intros Hg. rewrite main_loop_round. cbv zeta. by rewrite Hg.
  - apply main_loop_eof.
Qed.

End CliSessions.

Section CliWitnesses.
Import PyDate Demo.
Local Open Scope positive_scope.

Lemma cli_add_rejects_malformed_input_witness :
  CliDemo.to_float (CliDemo.strip "free") = None
  ∧ ∃ w', CliHandlers.add_subscription CliDemo.strip CliDemo.to_float
            CliDemo.strptime_ymd (Cli.World ["Netflix"; "free"; "8"] [] streaming_cents)
          = Some (Cli.Done tt, w')
          ∧ Cli.stdin w' = ["8"]
          ∧ Cli.manager w' = streaming_cents.
Proof.
  assert (Hc : CliDemo.to_float (CliDemo.strip "free") = None) by reflexivity.
  split; [exact Hc |]. eexists. split; [| split].
  - exact (proj1 (cli_add_rejects_malformed_input CliDemo.strip CliDemo.to_float
                    CliDemo.strptime_ymd "Netflix" "free" ["8"] [] streaming_cents) Hc).
  - reflexivity.
  - reflexivity.
Defined.

Lemma cli_add_inserts_or_reports_duplicate_witness :
  CliDemo.to_float (CliDemo.strip "15") = Some 1500%Z
  ∧ CliDemo.strptime_ymd (CliDemo.strip "2025-01-01") = Some jan1
  ∧ ∃ w', CliHandlers.add_subscription CliDemo.strip CliDemo.to_float
            CliDemo.strptime_ymd
            (Cli.World ["Netflix"; "15"; "2025-01-01"] [] (init (num := Z)))
          = Some (Cli.Done tt, w')
          ∧ _subscriptions (Cli.manager w') = [("Netflix", 1)]
          ∧ heap (Cli.manager w') !! 1
            = Some (mkSubscription "Netflix" 1500%Z jan1 true).
Proof.
  assert (Hc : CliDemo.to_float (CliDemo.strip "15") = Some 1500%Z) by reflexivity.
  assert (Hd : CliDemo.strptime_ymd (CliDemo.strip "2025-01-01") = Some jan1)
    by reflexivity.
  split; [exact Hc |]. split; [exact Hd |]. eexists. split; [| split].
  - apply (proj1 (proj2 (cli_add_inserts_or_reports_duplicate CliDemo.strip
                           CliDemo.to_float CliDemo.strptime_ymd
                           "Netflix" "15" "2025-01-01" [] [] init 1500%Z jan1 Hc Hd))).
    apply not_elem_of_nil.
  - reflexivity.
  - reflexivity.
Defined.

Lemma cli_remove_reports_witness :
  ("Spotify" ∉ PyDict.keys (_subscriptions streaming_cents))
  ∧ ∃ w', CliHandlers.remove_subscription CliDemo.strip
            (Cli.World ["Spotify"] [] streaming_cents)
          = Some (Cli.Done tt, w')
          ∧ Cli.manager w' = streaming_cents.
Proof.
  assert (Habs : "Spotify" ∉ PyDict.keys (_subscriptions streaming_cents)).
  { simpl. intros Hin. repeat (apply elem_of_cons in Hin as [Hin|Hin]; [discriminate |]).
    by apply elem_of_nil in Hin. }
  split; [exact Habs |]. eexists. split.
  - exact (proj2 (cli_remove_reports CliDemo.strip "Spotify" [] [] streaming_cents) Habs).
  - reflexivity.
Defined.

Lemma cli_renew_outcomes_witness :
  CliDemo.strptime_ymd (CliDemo.strip "9999-12-31") = Some last_day
  ∧ PyDict.get (CliDemo.strip "Hulu") (_subscriptions streaming_cents) = Some 2
  ∧ (MAXORDINAL < toordinal last_day + 30)%Z
  ∧ ∃ w', CliHandlers.renew_subscription CliDemo.strip CliDemo.strptime_ymd
            CliDemo.date_str jan1 (Cli.World ["Hulu"; "9999-12-31"] [] streaming_cents)
          = Some (Cli.Fail (Cli.Core OverflowError), w')
          ∧ heap (Cli.manager w') !! 2
            = Some (mkSubscription "Hulu" 499%Z (ymd 2024 12 31) true).
Proof.
  assert (Hd : CliDemo.strptime_ymd (CliDemo.strip "9999-12-31") = Some last_day)
    by reflexivity.
  assert (Hhi : (MAXORDINAL < toordinal last_day + 30)%Z) by reflexivity.
  split; [exact Hd |]. split; [reflexivity |]. split; [exact Hhi |].
  eexists. split.
  - exact (proj2 (proj2 (cli_renew_outcomes CliDemo.strip CliDemo.strptime_ymd
                    CliDemo.date_str jan1 "Hulu" "9999-12-31" [] [] streaming_cents
                    last_day Hd) 2 (mkSubscription "Hulu" 499%Z (ymd 2024 12 31) false)
                    eq_refl eq_refl) Hhi).
  - reflexivity.
Defined.

Lemma cli_auto_cancel_outcomes_witness :
  heap_closed streaming_cents
  ∧ CliDemo.strptime_ymd (CliDemo.strip "2025-01-01") = Some jan1
  ∧ ∃ σ' w', auto_cancel_subscriptions jan1 (Some jan1) streaming_cents
             = Some (Ok tt, σ')
             ∧ CliHandlers.auto_cancel CliDemo.strip CliDemo.strptime_ymd jan1
                 (Cli.World ["2025-01-01"] [] streaming_cents)
               = Some (Cli.Done tt, w')
             ∧ Cli.manager w' = σ'.
Proof.
  split; [exact streaming_cents_closed |]. split; [reflexivity |].
  destruct (proj2 (cli_auto_cancel_outcomes CliDemo.strip CliDemo.strptime_ymd jan1
                     "2025-01-01" [] [] streaming_cents streaming_cents_closed)
              jan1 eq_refl) as (σ' & Hrun & Hcli).
  exists σ'. eexists. split; [exact Hrun |]. split; [exact Hcli | reflexivity].
Defined.

Lemma cli_list_prints_the_listing_witness :
  heap_closed streaming_cents
  ∧ CliHandlers.list_subscriptions CliDemo.format_2f CliDemo.date_str true
      (Cli.World [] [] streaming_cents)
    = Some (Cli.Done tt,
            Cli.World []
              [Cli.Line "- Netflix: $4.99/mo, renewal date 2025-01-01, active"]
              streaming_cents).
Proof.
  split; [exact streaming_cents_closed |].
  exact (cli_list_prints_the_listing CliDemo.format_2f CliDemo.date_str true [] []
           streaming_cents streaming_cents_closed).
Defined.

Lemma cli_actions_end_well_witness :
  manager_inv streaming_cents
  ∧ ∃ r w', CliHandlers.remove_subscription CliDemo.strip
              (Cli.World ["Hulu"] [] streaming_cents) = Some (r, w')
            ∧ manager_inv (Cli.manager w').
Proof.
  split; [exact streaming_cents_inv |].
  destruct (proj1 (proj2 (cli_actions_end_well CliDemo.strip CliDemo.to_float
                            CliDemo.strptime_ymd CliDemo.format_2f CliDemo.date_str
                            jan1))
              (Cli.World ["Hulu"] [] streaming_cents) streaming_cents_inv)
    as (r & w' & Hrun & Hinv & _).
  exists r, w'. split; [exact Hrun | exact Hinv].
Defined.

Lemma cli_main_terminates_witness :
  (length ["1"; "Netflix"; "15"; "2025-01-01"; "6"; "Netflix"; "9999-12-31"] < 8)%nat
  ∧ ∃ r w',
      CliDemo.main 8 ["1"; "Netflix"; "15"; "2025-01-01"; "6"; "Netflix"; "9999-12-31"]
      = Some (r, w')
      ∧ manager_inv (Cli.manager w').
Proof.
  assert (Hlen : (length ["1"; "Netflix"; "15"; "2025-01-01"; "6"; "Netflix";
                          "9999-12-31"] < 8)%nat) by (simpl; lia).
  split; [exact Hlen |].
  destruct (cli_main_terminates CliDemo.strip CliDemo.to_float CliDemo.strptime_ymd
              CliDemo.format_2f CliDemo.date_str jan1 8 _ Hlen)
    as (r & w' & Hrun & Hinv & _).
  exists r, w'. split; [exact Hrun | exact Hinv].
Defined.

Lemma cli_menu_round_witness :
  CliDemo.strip "8" = "8"
  ∧ CliHandlers.main_loop CliDemo.strip CliDemo.to_float CliDemo.strptime_ymd
      CliDemo.format_2f CliDemo.date_str jan1 1 (Cli.World ["8"] [] streaming_cents)
    = Some (Cli.Done tt,
            Cli.World []
              (([] ++ CliSpec.menu ++ [Cli.Prompt "Choose an option: "])
               ++ [Cli.Line "Goodbye!"])
              streaming_cents).
Proof.
  split; [reflexivity |].
  exact (proj1 (cli_menu_round CliDemo.strip CliDemo.to_float CliDemo.strptime_ymd
                  CliDemo.format_2f CliDemo.date_str jan1 0 "8" [] [] streaming_cents)
           eq_refl).
Defined.

End CliWitnesses.
